(** * stdlibs/fetch.py: the table generator, embedded and verified

    [fetch.py] downloads the source archive of every tracked CPython
    release, scans the build script and the source tree for module names
    and writes one table per release plus three aggregates.

    Conventions of the embedding:
    - a Python [str] is a [string]; its characters are the code points
      below 256, which is exact for ASCII text (names, C sources, build
      scripts).  A file keeps the text that [read_text] returns;
    - a [Set[str]] is a [gset string], a [List[str]] a [list string];
    - the file system, the log of child processes and the console make up
      the [World]; [regen] and [regen_all] run in a state monad over it
      whose results are a value or a raised exception;
    - what the script takes from outside itself (libcst's parser, the
      child processes, the directory of the script) is the record [Env]. *)

From Stdlib Require Import Ascii String.
From stdpp Require Import base option list strings sorting gmap.

Set Warnings "-clear-no-such-hyp".

(** ** Python's [str] methods used by the script *)

Module Str.

Definition chars (s : string) : list ascii := list_ascii_of_string s.
Definition of_chars (l : list ascii) : string := string_of_list_ascii l.

Definition startswith (s p : string) : bool := String.prefix p s.

Definition endswith (s p : string) : bool :=
  String.prefix (String.rev p) (String.rev s).

(** [s.startswith((p1, p2, ...))] *)
Definition startswith_any (s : string) (ps : list string) : bool :=
  existsb (startswith s) ps.

(** [sep in s] *)
Fixpoint contains (sep s : string) : bool :=
  String.prefix sep s ||
  match s with
  | EmptyString => false
  | String _ s' => contains sep s'
  end.

(** [s.split(sep)] for a non-empty [sep]: the text is cut at every
    occurrence of [sep] found from the left, occurrences do not overlap.
    [skip] counts the characters of a separator still to be passed,
    [cur] is the piece read so far, reversed. *)
Fixpoint split_go (sep s : string) (skip : nat) (cur : string) : list string :=
  match s with
  | EmptyString => [String.rev cur]
  | String c s' =>
      match skip with
      | S k => split_go sep s' k cur
      | O =>
          if String.prefix sep s
          then String.rev cur :: split_go sep s' (String.length sep - 1) ""
          else split_go sep s' 0 (String c cur)
      end
  end.

Definition split (s sep : string) : list string := split_go sep s 0 "".

(** [sep.join(parts)] *)
Fixpoint join (sep : string) (parts : list string) : string :=
  match parts with
  | [] => ""
  | [p] => p
  | p :: ps => p +:+ sep +:+ join sep ps
  end.

(** [s.rsplit(sep, 1)]: at most one cut, at the last occurrence. *)
Definition rsplit1 (s sep : string) : list string :=
  match split (String.rev s) (String.rev sep) with
  | [] | [_] => [s]
  | last :: before =>
      [String.rev (join (String.rev sep) before); String.rev last]
  end.

(** [str.isspace] on one character, for the code points below 256. *)
Definition isspace (c : ascii) : bool :=
  let n := nat_of_ascii c in
  ((9 <=? n) && (n <=? 13)) || ((28 <=? n) && (n <=? 32))
  || (n =? 133) || (n =? 160).

Fixpoint lstrip_by (p : ascii -> bool) (s : string) : string :=
  match s with
  | EmptyString => EmptyString
  | String c s' => if p c then lstrip_by p s' else s
  end.

Definition strip_by (p : ascii -> bool) (s : string) : string :=
  String.rev (lstrip_by p (String.rev (lstrip_by p s))).

(** [s.strip()] *)
Definition strip (s : string) : string := strip_by isspace s.

(** [s.strip(cs)]: the characters of [cs] are removed at both ends. *)
Definition strip_chars (s cs : string) : string :=
  strip_by (fun c => bool_decide (c ∈ chars cs)) s.

(** [s.replace(c, "")] for a one-character [c]. *)
Fixpoint remove_char (c : ascii) (s : string) : string :=
  match s with
  | EmptyString => EmptyString
  | String d s' => if bool_decide (c = d) then remove_char c s'
                   else String d (remove_char c s')
  end.

(** The line boundaries of [str.splitlines] below 256:
    LF, VT, FF, CR, FS, GS, RS and NEL; CR LF counts as one. *)
Definition is_linebreak (c : ascii) : bool :=
  let n := nat_of_ascii c in
  ((10 <=? n) && (n <=? 13)) || ((28 <=? n) && (n <=? 30)) || (n =? 133).

(** [s.splitlines(True)]: the lines with their line ends kept. *)
Fixpoint splitlines_go (s : string) (cur : string) : list string :=
  match s with
  | EmptyString =>
      match cur with EmptyString => [] | _ => [String.rev cur] end
  | String c s' =>
      if is_linebreak c then
        match s' with
        | String d s'' =>
            if bool_decide (c = "013"%char) && bool_decide (d = "010"%char)
            then splitlines_go s' (String c cur)
            else String.rev (String c cur) :: splitlines_go s' ""
        | EmptyString => [String.rev (String c cur)]
        end
      else splitlines_go s' (String c cur)
  end.

Definition splitlines_keepends (s : string) : list string :=
  splitlines_go s "".

(** [int(s)] for a string of decimal digits; any other text is refused
    here ([None] stands for [ValueError]).  The script only converts
    the dot-separated parts of a key of [RELEASES]. *)
Fixpoint digits_value (s : string) (acc : Z) : option Z :=
  match s with
  | EmptyString => Some acc
  | String c s' =>
      let n := nat_of_ascii c in
      if (48 <=? n) && (n <=? 57)
      then digits_value s' (10 * acc + Z.of_nat (n - 48))%Z
      else None
  end.

Definition int (s : string) : option Z :=
  match s with
  | EmptyString => None
  | _ => digits_value s 0%Z
  end.

End Str.

(** ** The fragment of Python's [re] that the four patterns use

    A backtracking matcher in continuation-passing style: a quantifier
    tries its alternatives in [re]'s order (greedy: longest first, lazy:
    shortest first) and the first alternative whose continuation succeeds
    wins.  The patterns of the script quantify single characters only.
    Three of them have one capturing group, which every match goes
    through: such a pattern is kept as the three parts before, inside and
    after the group, so that [group(1)] of a match is always a string. *)

Module Re.

Inductive re : Type :=
| Lit (s : string)                       (* literal text *)
| Cls (p : ascii -> bool)                (* one character of a class *)
| Rep (p : ascii -> bool) (lo : nat) (hi : option nat) (greedy : bool)
                                         (* a quantified class *)
| NotAhead (r : re)                      (* (?!r) *)
| Cat (r1 r2 : re).

(** [pre(grp)post] *)
Record grouped : Type := Grouped { pre : re; grp : re; post : re }.

Fixpoint drop (n : nat) (s : string) : string :=
  match n, s with
  | S n', String _ s' => drop n' s'
  | _, _ => s
  end.

Fixpoint take (n : nat) (s : string) : string :=
  match n, s with
  | S n', String c s' => String c (take n' s')
  | _, _ => EmptyString
  end.

(** The text consumed between the input [s] and its suffix [s']. *)
Definition taken (s s' : string) : string :=
  take (String.length s - String.length s') s.

Fixpoint rep {R : Type} (p : ascii -> bool) (greedy : bool) (s : string)
    (lo : nat) (hi : option nat) (k : string -> option R) {struct s}
    : option R :=
  let stop (_ : unit) := match lo with O => k s | S _ => None end in
  let more (_ : unit) :=
    match hi, s with
    | Some O, _ => None
    | _, String c s' =>
        if p c then rep p greedy s' (Nat.pred lo) (Nat.pred <$> hi) k
        else None
    | _, EmptyString => None
    end in
  if greedy
  then match more () with Some x => Some x | None => stop () end
  else match stop () with Some x => Some x | None => more () end.

Fixpoint run (r : re) (R : Type) (s : string)
    (k : string -> option R) {struct r} : option R :=
  match r with
  | Lit l =>
      if String.prefix l s then k (drop (String.length l) s) else None
  | Cls p =>
      match s with
      | String c s' => if p c then k s' else None
      | EmptyString => None
      end
  | Rep p lo hi greedy => rep p greedy s lo hi k
  | NotAhead r1 =>
      match run r1 unit s (fun _ => Some ()) with
      | Some _ => None
      | None => k s
      end
  | Cat r1 r2 => run r1 R s (fun s' => run r2 R s' k)
  end.

(** [pattern.match] at the head of [s]: the length of the match. *)
Definition match_at (r : re) (s : string) : option nat :=
  run r _ s (fun s' => Some (String.length s - String.length s')).

(** The same for a pattern with a group: length and [group(1)]. *)
Definition gmatch_at (r : grouped) (s : string) : option (nat * string) :=
  run (pre r) _ s (fun s1 =>
  run (grp r) _ s1 (fun s2 =>
  run (post r) _ s2 (fun s3 =>
    Some (String.length s - String.length s3, taken s1 s2)))).

(** A match object: where it starts, how long it is, [group(1)]. *)
Record Match : Type := { m_start : nat; m_len : nat; group1 : string }.

(** [pattern.search(s)]: the match at the leftmost position that has one. *)
Fixpoint search_from (r : grouped) (s : string) (i : nat) : option Match :=
  match gmatch_at r s with
  | Some (n, g) => Some {| m_start := i; m_len := n; group1 := g |}
  | None =>
      match s with
      | String _ s' => search_from r s' (S i)
      | EmptyString => None
      end
  end.

Definition search (r : grouped) (s : string) : option Match :=
  search_from r s 0.

(** [pattern.sub] with the empty replacement: every match, found from
    the left and not overlapping, is deleted.  ([re]'s rules for empty
    matches play no part: deleting an empty match changes nothing.) *)
Fixpoint sub_empty_go (r : re) (s : string) (skip : nat) : string :=
  match s with
  | EmptyString => EmptyString
  | String c s' =>
      match skip with
      | S k => sub_empty_go r s' k
      | O =>
          match match_at r s with
          | Some (S n) => sub_empty_go r s' n
          | _ => String c (sub_empty_go r s' 0)
          end
      end
  end.

Definition sub_empty (r : re) (s : string) : string := sub_empty_go r s 0.

(** [pattern.finditer(s)] for a pattern that matches no empty string:
    the matches from the left, not overlapping. *)
Fixpoint finditer_go (r : grouped) (s : string) (i skip : nat) : list Match :=
  match s with
  | EmptyString => []
  | String c s' =>
      match skip with
      | S k => finditer_go r s' (S i) k
      | O =>
          match gmatch_at r s with
          | Some (S n, g) =>
              {| m_start := i; m_len := S n; group1 := g |}
                :: finditer_go r s' (S i) n
          | _ => finditer_go r s' (S i) 0
          end
      end
  end.

Definition finditer (r : grouped) (s : string) : list Match :=
  finditer_go r s 0 0.

(** Character classes: [.], [\s], [\S], [\d], [[...]] and [[^...]]. *)
Definition dot (c : ascii) : bool := negb (bool_decide (c = "010"%char)).
Definition space (c : ascii) : bool := Str.isspace c.
Definition nonspace (c : ascii) : bool := negb (Str.isspace c).
Definition digit (c : ascii) : bool :=
  let n := nat_of_ascii c in (48 <=? n) && (n <=? 57).
Definition one_of (cs : string) (c : ascii) : bool :=
  bool_decide (c ∈ Str.chars cs).
Definition none_of (cs : string) (c : ascii) : bool := negb (one_of cs c).

Definition star (p : ascii -> bool) : re := Rep p 0 None true.
Definition plus (p : ascii -> bool) : re := Rep p 1 None true.
Definition lazy_star (p : ascii -> bool) : re := Rep p 0 None false.
Definition lazy_plus (p : ascii -> bool) : re := Rep p 1 None false.
Definition opt (p : ascii -> bool) : re := Rep p 0 (Some 1) true.

End Re.

Infix "·" := Re.Cat (at level 41, right associativity).

(** ** The constants of the script *)

(** The double quote character, as a one-character string. *)
Definition dquote : string := String "034"%char EmptyString.

(** [PyModuleDef .*? = \{\s*[^,]*,\s*([^,}]+)[,}]] *)
Definition MODULE_DEF_RE : Re.grouped :=
  {| Re.pre := Re.Lit "PyModuleDef " · Re.lazy_star Re.dot · Re.Lit " = {"
               · Re.star Re.space · Re.star (Re.none_of ",") · Re.Lit ","
               · Re.star Re.space;
     Re.grp := Re.plus (Re.none_of ",}");
     Re.post := Re.Cls (Re.one_of ",}") |}.

(** [/\*.*?\*/] *)
Definition MULTILINE_COMMENT_RE : Re.re :=
  Re.Lit "/*" · Re.lazy_star Re.dot · Re.Lit "*/".

(** [.Py_InitModule\d?\(\s*(?!\))(.*?),] *)
Definition PY2_INITMODULE_RE : Re.grouped :=
  {| Re.pre := Re.Cls Re.dot · Re.Lit "Py_InitModule" · Re.opt Re.digit
               · Re.Lit "(" · Re.star Re.space · Re.NotAhead (Re.Lit ")");
     Re.grp := Re.lazy_star Re.dot;
     Re.post := Re.Lit "," |}.

(** [{Q([^Q]+)Q, \S+?\}] where Q is the double quote character *)
Definition INITTAB_RE : Re.grouped :=
  {| Re.pre := Re.Lit ("{" +:+ dquote);
     Re.grp := Re.plus (Re.none_of dquote);
     Re.post := Re.Lit (dquote +:+ ", ") · Re.lazy_plus Re.nonspace
                · Re.Lit "}" |}.

(** The marker that line 184 splits the text of a [config.c] at. *)
Definition INITTAB_MARKER : string := "_PyImport_Inittab[] = {".

(** Keys and values of [RELEASES], in the order of the dict literal. *)
Definition RELEASES : list (string * string) :=
  [ ("2.3", "https://www.python.org/ftp/python/2.3.7/Python-2.3.7.tgz");
    ("2.4", "https://www.python.org/ftp/python/2.4.6/Python-2.4.6.tgz");
    ("2.5", "https://www.python.org/ftp/python/2.5.6/Python-2.5.6.tgz");
    ("2.6", "https://www.python.org/ftp/python/2.6.9/Python-2.6.9.tgz");
    ("2.7", "https://www.python.org/ftp/python/2.7.18/Python-2.7.18.tgz");
    ("3.0", "https://www.python.org/ftp/python/3.0.1/Python-3.0.1.tgz");
    ("3.1", "https://www.python.org/ftp/python/3.1.5/Python-3.1.5.tgz");
    ("3.2", "https://www.python.org/ftp/python/3.2.6/Python-3.2.6.tgz");
    ("3.3", "https://www.python.org/ftp/python/3.3.7/Python-3.3.7.tgz");
    ("3.4", "https://www.python.org/ftp/python/3.4.10/Python-3.4.10.tgz");
    ("3.5", "https://www.python.org/ftp/python/3.5.10/Python-3.5.10.tgz");
    ("3.6", "https://www.python.org/ftp/python/3.6.13/Python-3.6.13.tgz");
    ("3.7", "https://www.python.org/ftp/python/3.7.10/Python-3.7.10.tgz");
    ("3.8", "https://www.python.org/ftp/python/3.8.8/Python-3.8.8.tgz");
    ("3.9", "https://www.python.org/ftp/python/3.9.2/Python-3.9.2.tgz");
    ("3.10", "https://www.python.org/ftp/python/3.10.0/Python-3.10.0a6.tgz") ].

(** [RELEASES[version]] *)
Fixpoint assoc (k : string) (d : list (string * string)) : option string :=
  match d with
  | [] => None
  | (k', v) :: d' => if bool_decide (k = k') then Some v else assoc k d'
  end.

(** lib2to3 outputs code that does not parse, so these lines are omitted. *)
Definition PY2_LINES_TO_OMIT : list string :=
  [ "join(F, fw + '.framework', H)";
    "for fw in 'Tcl', 'Tk'";
    "for fw in ('Tcl', 'Tk')";
    "for H in 'Headers', 'Versions/Current/PrivateHeaders'" ].

Definition newline : string := String "010"%char EmptyString.

(** The lines of the script itself up to its first blank line. *)
Definition MY_COPYRIGHT_HEADER : string :=
  "# Copyright 2021 John Reese" +:+ newline
  +:+ "# Licensed under the MIT license" +:+ newline.

(** [GENERATED_TMPL.format(lines=lines)] *)
Definition GENERATED_TMPL_format (lines : string) : string :=
  MY_COPYRIGHT_HEADER +:+ newline
  +:+ "# Generated by stdlibs/fetch.py" +:+ newline
  +:+ newline
  +:+ "module_names = frozenset(" +:+ newline
  +:+ "    [" +:+ newline
  +:+ lines +:+ "    ]" +:+ newline
  +:+ ")" +:+ newline.

(** ** libcst's syntax tree, as far as the visitor looks at it

    [Other] stands for every node class that the two matchers do not
    mention, with its child nodes in the order libcst visits them.  The
    positional fields of the constructors are in that order too. *)

Module Cst.

#[warnings="-register-all"]
Inductive node : Type :=
| Name (value : string)
| SimpleString (value : string)             (* the token, quotes included *)
| Call (func : node) (args : list node)
| Arg (keyword : option string) (value : node) (star : string)
| List (elements : list node)
| Element (value : node)
| StarredElement (value : node)
| Assign (targets : list node) (value : node)
| AssignTarget (target : node)
| Other (children : list node).

(** The child nodes of a node, in visiting order. *)
Definition children_of (n : node) : list node :=
  match n with
  | Name _ | SimpleString _ => []
  | Call f args => f :: args
  | Arg _ v _ => [v]
  | List es => es
  | Element v | StarredElement v => [v]
  | Assign ts v => ts ++ [v]
  | AssignTarget t => [t]
  | Other cs => cs
  end.

(** [n] occurs in the tree below (or at) [root]. *)
Inductive occurs_in (n : node) : node -> Prop :=
| occurs_here : occurs_in n n
| occurs_below root c :
    c ∈ children_of root -> occurs_in n c -> occurs_in n root.

End Cst.

(** ** Exceptions and results *)

Definition path : Type := list string.

Inductive exn : Type :=
| KeyError (key : string)
| IndexError
| ValueError (msg : string)
| Exception (msg : string)
| ParserSyntaxError (msg : string)
| CalledProcessError (argv : list string)
| FileNotFoundError (p : path)
| FileExistsError (p : path)
| NotADirectoryError (p : path)
| IsADirectoryError (p : path)
| ForeignError (what : string).       (* anything else raised outside the script *)

Inductive result (A : Type) : Type :=
| Ok (a : A)
| Raise (e : exn).
Arguments Ok {A} a.
Arguments Raise {A} e.

(** What [cst.parse_module] does with a text under one grammar version. *)
Inductive parse_outcome : Type :=
| Parsed (module : Cst.node)
| Rejected (e : exn).

(** ** The world of the script *)

Inductive fnode : Type :=
| File (text : string)
| Dir.

#[global] Instance fnode_eq_dec : EqDecision fnode.
Proof. solve_decision. Defined.

(** One child process: the argument vector and the [cwd] it was given. *)
Record process : Type := Process { argv : list string; cwd : option string }.

Record World : Type := mkWorld {
  fs : gmap path fnode;           (* paths relative to the working directory *)
  processes : list process;       (* the child processes run so far *)
  console : list string           (* the lines printed so far *)
}.

(** What the script takes from its surroundings. *)
Record Env : Type := mkEnv {
  BASE_DIR : path;                (* the directory of fetch.py *)
  sys_executable : string;
  (** The effect of a child process on the files, and whether its exit
      status is zero. *)
  run_process : process -> gmap path fnode -> gmap path fnode * bool;
  (** libcst *)
  KNOWN_PYTHON_VERSION_STRINGS : list string;
  parse_module : string -> string -> parse_outcome;
  evaluated_value : string -> string
}.

(** A computation: it reads and changes the world and returns or raises.
    The changes made before an exception stay. *)
Definition M (A : Type) : Type := World -> result A * World.

Definition ret {A} (a : A) : M A := fun w => (Ok a, w).
Definition raise {A} (e : exn) : M A := fun w => (Raise e, w).
Definition bind {A B} (m : M A) (f : A -> M B) : M B :=
  fun w => match m w with
           | (Ok a, w') => f a w'
           | (Raise e, w') => (Raise e, w')
           end.
Definition lift {A} (r : result A) : M A := fun w => (r, w).

Notation "x ←ₘ m ; k" := (bind m (fun x => k))
  (at level 100, m at next level, right associativity,
   format "'[v' x  ←ₘ  m ; '/' k ']'").
Notation "m ;ₘ k" := (bind m (fun _ => k))
  (at level 100, right associativity, format "'[v' m  ;ₘ '/' k ']'").

(** [for x in xs: acc = body(x, acc)] *)
Fixpoint for_each {A B} (xs : list A) (body : A -> B -> M B) (acc : B) : M B :=
  match xs with
  | [] => ret acc
  | x :: xs' => acc' ←ₘ body x acc; for_each xs' body acc'
  end.

(** ** Paths *)

Module Path.

(** [p / name] *)
Definition child (p : path) (name : string) : path := p ++ [name].

(** [p.name] *)
Definition name (p : path) : string := List.last p "".

(** [p.parent] *)
Definition parent (p : path) : path := removelast p.

(** [str(p)] *)
Definition to_str (p : path) : string := Str.join "/" p.

(** [PurePath.suffix] of a file name: the text from the last dot on,
    unless that dot is the first or the last character. *)
Definition suffix (name : string) : string :=
  match Str.rsplit1 name "." with
  | [front; back] =>
      if bool_decide (front = "") || bool_decide (back = "") then ""
      else "." +:+ back
  | _ => ""
  end.

(** [p.with_suffix("").name] as a function of [p.name] *)
Definition stem (name : string) : string :=
  match Str.rsplit1 name "." with
  | [front; back] =>
      if bool_decide (front = "") || bool_decide (back = "") then name
      else front
  | _ => name
  end.

End Path.

(** ** The file system operations the script uses *)

Section FileSystem.

Implicit Types (p : path) (w : World).

Definition set_fs (f : gmap path fnode) w : World :=
  {| fs := f; processes := processes w; console := console w |}.

(** [p.exists()] *)
Definition exists_ p : M bool :=
  fun w => (Ok (bool_decide (is_Some (fs w !! p))), w).

(** [p.is_dir()] *)
Definition is_dir p : M bool :=
  fun w => (Ok (bool_decide (fs w !! p = Some Dir)), w).

(** The working directory itself is the empty path and always there. *)
Definition dir_there (f : gmap path fnode) p : bool :=
  bool_decide (p = []) || bool_decide (f !! p = Some Dir).

(** [p.mkdir(exist_ok=True)] *)
Definition mkdir_exist_ok p : M unit :=
  fun w =>
    match fs w !! p with
    | Some Dir => (Ok (), w)
    | Some (File _) => (Raise (FileExistsError p), w)
    | None =>
        if dir_there (fs w) (Path.parent p)
        then (Ok (), set_fs (<[p := Dir]> (fs w)) w)
        else (Raise (FileNotFoundError p), w)
    end.

(** [p.read_text()] and [p.read_bytes()] *)
Definition read_text p : M string :=
  fun w =>
    match fs w !! p with
    | Some (File text) => (Ok text, w)
    | Some Dir => (Raise (IsADirectoryError p), w)
    | None => (Raise (FileNotFoundError p), w)
    end.

(** [p.write_text(text)].  The script writes next to itself and to a
    file it has just read, so the directory is there. *)
Definition write_text p (text : string) : M unit :=
  fun w => (Ok (), set_fs (<[p := File text]> (fs w)) w).

(** The entries of the directory [p], in the order of the map. *)
Definition entries (f : gmap path fnode) p : list path :=
  filter (fun q => q ≠ [] ∧ Path.parent q = p) (elements (dom f)).

(** [p.glob("*")]: nothing when [p] is no directory. *)
Definition glob_all p : M (list path) :=
  fun w =>
    (Ok (if bool_decide (fs w !! p = Some Dir) then entries (fs w) p else []),
     w).

(** [p.glob("*.c")] *)
Definition glob_c p : M (list path) :=
  fun w =>
    (Ok (if bool_decide (fs w !! p = Some Dir)
         then filter (fun q => Str.endswith (Path.name q) ".c" = true)
                (entries (fs w) p)
         else []),
     w).

(** [p.iterdir()] *)
Definition iterdir p : M (list path) :=
  fun w =>
    match fs w !! p with
    | Some Dir => (Ok (entries (fs w) p), w)
    | Some (File _) => (Raise (NotADirectoryError p), w)
    | None => (Raise (FileNotFoundError p), w)
    end.

(** [print(line)] *)
Definition print (line : string) : M unit :=
  fun w => (Ok (), {| fs := fs w; processes := processes w;
                      console := console w ++ [line] |}).

End FileSystem.

(** ** The script *)

Section Program.

Context (env : Env).

Notation "p // name" := (Path.child p name) (at level 40, left associativity).

(** [sorted(data)] for a set of strings: the elements in the order of
    their code points. *)
Definition sorted (data : gset string) : list string :=
  merge_sort String.le (elements data).

(** One line of a table: eight spaces, the quoted name, a comma. *)
Definition table_line (s : string) : string :=
  "        " +:+ dquote +:+ s +:+ dquote +:+ "," +:+ newline.

(** The text of a table file, as a function of the names it lists. *)
Definition table_text (names : list string) : string :=
  GENERATED_TMPL_format (Str.join "" (table_line <$> names)).

(** [write_tmpl], lines 70-72 *)
Definition write_tmpl (name : string) (data : gset string) : M unit :=
  let lines := Str.join "" (table_line <$> sorted data) in
  write_text (BASE_DIR env // name) (GENERATED_TMPL_format lines).

(** [subprocess.check_call(argv, cwd=cwd)]: the call is logged, the
    child changes the files, a non-zero status raises. *)
Definition check_call (argv : list string) (cwd : option string) : M unit :=
  fun w =>
    let pr := Process argv cwd in
    let '(files, zero) := run_process env pr (fs w) in
    let w' := {| fs := files; processes := processes w ++ [pr];
                 console := console w |} in
    if zero then (Ok (), w') else (Raise (CalledProcessError argv), w').

(** *** [ExtensionVisitor], lines 202-234 *)

Definition is_extension_callee (func : Cst.node) : bool :=
  match func with
  | Cst.Name v =>
      bool_decide (v = "Extension") || bool_decide (v = "addMacExtension")
  | _ => false
  end.

(** [m.extract] of [visit_Call]: the token of the string saved as
    [extension_name], when the call matches. *)
Definition extract_Call (node : Cst.node) : option string :=
  match node with
  | Cst.Call func (Cst.Arg _ (Cst.SimpleString tok) _ :: _) =>
      if is_extension_callee func then Some tok else None
  | _ => None
  end.

Definition visit_Call (node : Cst.node) (extension_names : list string)
    : list string :=
  match extract_Call node with
  | Some tok => extension_names ++ [evaluated_value env tok]
  | None => extension_names
  end.

(** [m.extract] of [visit_Assign]: the elements of the list saved as
    [list], when the assignment matches. *)
Definition extract_Assign (node : Cst.node) : option (list Cst.node) :=
  match node with
  | Cst.Assign [Cst.AssignTarget (Cst.Name v)] (Cst.List elements) =>
      if bool_decide (v = "CARBON_EXTS") then Some elements else None
  | _ => None
  end.

(** The loop body of [visit_Assign], lines 233-234. *)
Definition record_element (extension_names : list string) (item : Cst.node)
    : list string :=
  match item with
  | Cst.Element (Cst.SimpleString tok)
  | Cst.StarredElement (Cst.SimpleString tok) =>
      extension_names ++ [evaluated_value env tok]
  | _ => extension_names
  end.

Definition visit_Assign (node : Cst.node) (extension_names : list string)
    : list string :=
  match extract_Assign node with
  | Some elements => foldl record_element extension_names elements
  | None => extension_names
  end.

(** libcst calls [visit_Call] on a [Call], [visit_Assign] on an [Assign]
    and nothing of this visitor on any other node. *)
Definition on_visit (node : Cst.node) (extension_names : list string)
    : list string :=
  match node with
  | Cst.Call _ _ => visit_Call node extension_names
  | Cst.Assign _ _ => visit_Assign node extension_names
  | _ => extension_names
  end.

(** [node.visit(ev)]: the node first, then its children in order (both
    methods return [None], so libcst goes on into the children). *)
Fixpoint visit (node : Cst.node) (extension_names : list string)
    : list string :=
  let visit_each :=
    fix visit_each (cs : list Cst.node) (acc : list string) : list string :=
      match cs with
      | [] => acc
      | c :: cs' => visit_each cs' (visit c acc)
      end in
  let acc := on_visit node extension_names in
  match node with
  | Cst.Name _ | Cst.SimpleString _ => acc
  | Cst.Call func args => visit_each args (visit func acc)
  | Cst.Arg _ v _ => visit v acc
  | Cst.List es => visit_each es acc
  | Cst.Element v | Cst.StarredElement v => visit v acc
  | Cst.Assign ts v => visit v (visit_each ts acc)
  | Cst.AssignTarget t => visit t acc
  | Cst.Other cs => visit_each cs acc
  end.

(** *** [try_parse], lines 238-263 *)

(** The loop over the grammar versions with its variable [parse_error]. *)
Fixpoint try_parse_loop (versions : list string) (data : string)
    (parse_error : option string) : result Cst.node :=
  match versions with
  | [] =>
      match parse_error with
      | Some e => Raise (ParserSyntaxError e)
      | None => Raise (Exception "unknown parse failure")
      end
  | version :: rest =>
      match parse_module env data version with
      | Parsed module => Ok module
      | Rejected (ParserSyntaxError e) =>
          try_parse_loop rest data
            (match parse_error with None => Some e | Some _ => parse_error end)
      | Rejected e => Raise e
      end
  end.

(** [try_parse(path, data)] once [data] is there. *)
Definition try_parse_data (data : string) : result Cst.node :=
  try_parse_loop (reverse (KNOWN_PYTHON_VERSION_STRINGS env)) data None.

Definition try_parse (p : path) : M Cst.node :=
  data ←ₘ read_text p;
  lift (try_parse_data data).

(** *** [regen], lines 94-199 *)

(** [RELEASES[version].split("/")[-1]] *)
Definition archive_of (url : string) : string :=
  List.last (Str.split url "/") "".

(** Line 95: [Path(".cache", archive.rsplit(".", 1)[0])] *)
Definition base_path_of (url : string) : path :=
  [".cache"; List.hd "" (Str.rsplit1 (archive_of url) ".")].

(** Lines 95-126: the cached tree of the release is made sure of; the
    result is [base_path] and the [setup_path] to parse. *)
Definition fetch (version url : string) : M (path * path) :=
  let archive := archive_of url in
  let base_path := base_path_of url in
  let setup_path := base_path // "setup.py" in
  there ←ₘ exists_ base_path;
  if negb there then
    mkdir_exist_ok [".cache"] ;ₘ
    check_call ["wget"; "-c"; url] (Some ".cache") ;ₘ
    check_call ["tar"; "-xvzf"; archive] (Some ".cache") ;ₘ
    if Str.startswith version "2" then
      mkdir_exist_ok (base_path // "fixed") ;ₘ
      check_call
        [sys_executable env; "-m"; "lib2to3"; "-n"; "-w"; "-o";
         Path.to_str (base_path // "fixed");
         Path.to_str (base_path // "setup.py")] None ;ₘ
      let setup_path := base_path // "fixed" // "setup.py" in
      text ←ₘ read_text setup_path;
      let lines :=
        filter (fun line => Str.strip line ∉ PY2_LINES_TO_OMIT)
          (Str.splitlines_keepends text) in
      write_text setup_path (Str.join "" lines) ;ₘ
      ret (base_path, setup_path)
    else ret (base_path, setup_path)
  else if Str.startswith version "2" then
    ret (base_path, base_path // "fixed" // "setup.py")
  else ret (base_path, setup_path).

(** Lines 137-143: one entry of a [plat-] or [lib-] directory. *)
Definition scan_plat_entry (entry : path) (names : list string)
    : M (list string) :=
  d ←ₘ is_dir entry;
  if d && negb (Str.startswith (Path.name entry) "lib-")
  then ret (names ++ [Path.name entry])
  else if Str.endswith (Path.name entry) ".py"
  then ret (names ++ [Path.stem (Path.name entry)])
  else ret names.

(** Lines 135-148: one entry of [Lib]. *)
Definition scan_lib_entry (p : path) (names : list string) : M (list string) :=
  if Str.startswith_any (Path.name p) ["plat-"; "lib-"] then
    paths ←ₘ iterdir p;
    for_each paths scan_plat_entry names
  else
    let name := Path.stem (Path.name p) in
    let name := List.hd "" (Str.split name ".") in
    if bool_decide (name ∈ ["__pycache__"; "site-packages"; "test"])
    then ret names
    else ret (names ++ [name]).

(** Lines 163-165: the text [s] taken from [match.group(1)]. *)
Definition matched_text (group1 : string) : result string :=
  let s := Str.strip (Re.sub_empty MULTILINE_COMMENT_RE group1) in
  if Str.startswith s ".m_name" then
    match Str.split s "=" !! 1%nat with
    | Some t => Ok (Str.strip t)
    | None => Raise IndexError
    end
  else Ok s.

(** Lines 167-174: what is done with [s] for the file named [fname]:
    a name to append, or the diagnostic to print. *)
Inductive verdict : Type :=
| Append (name : string)
| Skip (diagnostic : string).

Definition resolve (p : path) (s : string) : verdict :=
  let fname := Path.name p in
  if Str.startswith s dquote && Str.endswith s dquote
  then Append (Str.strip_chars s dquote)
  else if bool_decide
            (fname ∈ ["_warnings.c"; "_sre.c"; "pyexpat.c"; "_bsddb.c"])
  then Append (Path.stem fname)
  else if bool_decide (fname ∈ ["socketmodule.c"; "posixmodule.c"])
  then Append (List.hd "" (Str.split fname "module"))
  else Skip ("Unknown module for " +:+ s +:+ " in " +:+ Path.to_str p
             +:+ ", skipped").

(** [a or b] on two optional match objects (a match object is true). *)
Definition or_else {A} (a b : option A) : option A :=
  match a with Some _ => a | None => b end.

(** Lines 163-174: the body of [if match:], given [match.group(1)]. *)
Definition scan_match (p : path) (group1 : string) (names : list string)
    : M (list string) :=
  s ←ₘ lift (matched_text group1);
  match resolve p s with
  | Append name => ret (names ++ [name])
  | Skip diagnostic => print diagnostic ;ₘ ret names
  end.

(** Lines 156-174: one C file. *)
Definition scan_c_file (p : path) (names : list string) : M (list string) :=
  data ←ₘ read_text p;
  match or_else (Re.search MODULE_DEF_RE data)
                (Re.search PY2_INITMODULE_RE data) with
  | Some m => scan_match p (Re.group1 m) names
  | None => ret names
  end.

(** Lines 150-155: the C files of one of the three directories. *)
Definition scan_native_dir (base_path : path) (subdir : string)
    (names : list string) : M (list string) :=
  ps ←ₘ glob_c (base_path // subdir);
  for_each ps scan_c_file names.

(** Lines 186-188: one match of the table. *)
Definition record_inittab (names : list string) (m : Re.Match) : list string :=
  if bool_decide (Re.group1 m = "__main__") then names
  else names ++ [Re.group1 m].

(** Lines 181-188: one of the two [config.c]. *)
Definition scan_inittab (p : path) (names : list string) : M (list string) :=
  there ←ₘ exists_ p;
  if negb there then ret names else
  text ←ₘ read_text p;
  match Str.split text INITTAB_MARKER !! 1%nat with
  | Some table =>
      ret (foldl record_inittab names (Re.finditer INITTAB_RE table))
  | None => raise IndexError
  end.

(** Line 191: [tuple(int(x) for x in version.split("."))] *)
Definition version_tuple (version : string) : result (list Z) :=
  match mapM Str.int (Str.split version ".") with
  | Some t => Ok t
  | None => Raise (ValueError "invalid literal for int() with base 10")
  end.

(** [a >= b] on tuples of integers. *)
Fixpoint tuple_ge (a b : list Z) : bool :=
  match a, b with
  | _, [] => true
  | [], _ :: _ => false
  | x :: a', y :: b' =>
      if (x <? y)%Z then false
      else if (y <? x)%Z then true
      else tuple_ge a' b'
  end.

(** Lines 191-195 *)
Definition add_aliases (version_tuple : list Z) (names : list string)
    : list string :=
  let names :=
    if tuple_ge version_tuple [3; 3]%Z
    then names ++ ["_frozen_importlib"] else names in
  if tuple_ge version_tuple [3; 5]%Z
  then names ++ ["_frozen_importlib_external"] else names.

(** The name of the table of a release: [f"py{version.replace('.', '')}.py"] *)
Definition table_name (version : string) : string :=
  "py" +:+ Str.remove_char "." version +:+ ".py".

(** Lines 128-195: the names of a release, from its tree. *)
Definition collect (version : string) (base_path setup_path : path)
    : M (list string) :=
  module ←ₘ try_parse setup_path;
  let names := visit module [] in
  libs ←ₘ glob_all (base_path // "Lib");
  names ←ₘ for_each libs scan_lib_entry names;
  names ←ₘ for_each ["Python"; "Modules"; "PC"]
             (scan_native_dir base_path) names;
  names ←ₘ for_each [base_path // "PC" // "config.c";
                     base_path // "PC" // "os2vacpp" // "config.c"]
             scan_inittab names;
  version_tuple ←ₘ lift (version_tuple version);
  ret (add_aliases version_tuple names).

Definition regen (version : string) : M (gset string) :=
  url ←ₘ lift (match assoc version RELEASES with
               | Some url => Ok url
               | None => Raise (KeyError version)
               end);
  paths ←ₘ fetch version url;
  names ←ₘ collect version paths.1 paths.2;
  write_tmpl (table_name version) (list_to_set names) ;ₘ
  print (version +:+ " done.") ;ₘ
  ret (list_to_set names).

(** *** [regen_all], lines 75-91 *)

(** The body of the loop, lines 79-85; the state is [(all2, all3)]. *)
Definition regen_step (v : string) (acc : gset string * gset string)
    : M (gset string * gset string) :=
  names ←ₘ regen v;
  if Str.startswith v "2" then ret (acc.1 ∪ names, acc.2)
  else if Str.startswith v "3" then ret (acc.1, acc.2 ∪ names)
  else raise (ValueError "What is this brave new future you live in").

Definition regen_all : M unit :=
  acc ←ₘ for_each (RELEASES.*1) regen_step (∅, ∅);
  write_tmpl "py2.py" acc.1 ;ₘ
  write_tmpl "py3.py" acc.2 ;ₘ
  write_tmpl "py.py" (acc.1 ∪ acc.2) ;ₘ
  print "done".

End Program.

(** * Specification vocabulary *)

(** A computation keeps [obs] when no run of it changes what [obs] sees of
    the world, whether it returns or raises. *)
Definition keeps {X A} (obs : World -> X) (m : M A) : Prop :=
  forall w, obs (m w).2 = obs w.

(** A computation fails in [w] when it raises there. *)
Definition fails {A} (m : M A) (w : World) : Prop :=
  exists e, (m w).1 = Raise e.

(** The runs of [regen] that the loop of [regen_all] makes, one after the
    other, each with the set it returned. *)
Fixpoint regen_each (env : Env) (versions : list string)
    : M (list (string * gset string)) :=
  match versions with
  | [] => ret []
  | v :: rest =>
      names ←ₘ regen env v;
      runs ←ₘ regen_each env rest;
      ret ((v, names) :: runs)
  end.

(** The union of the sets of those runs whose version starts with [major]. *)
Definition union_of_major (major : string)
    (runs : list (string * gset string)) : gset string :=
  ⋃ (snd <$> filter (fun run => Str.startswith run.1 major = true) runs).

(** The error a rejected parse is remembered by in [try_parse]. *)
Definition syntax_error_of (o : parse_outcome) : option string :=
  match o with
  | Rejected (ParserSyntaxError e) => Some e
  | _ => None
  end.

(** What [visit_Assign] adds for one element of the list. *)
Definition string_element (env : Env) (item : Cst.node) : option string :=
  match item with
  | Cst.Element (Cst.SimpleString tok)
  | Cst.StarredElement (Cst.SimpleString tok) => Some (evaluated_value env tok)
  | _ => None
  end.

(** [s] passes the test of line 167. *)
Definition quoted (s : string) : bool :=
  Str.startswith s dquote && Str.endswith s dquote.

(** The table of a release as the specification describes it: sorted,
    without duplicates, without the empty string and without [__main__]. *)
Definition table_as_specified (env : Env) (version : string) (w : World)
    : Prop :=
  forall names w',
    regen env version w = (Ok names, w') ->
    fs w' !! Path.child (BASE_DIR env) (table_name version)
      = Some (File (table_text (sorted names)))
    /\ Sorted String.le (sorted names)
    /\ NoDup (sorted names)
    /\ ("" ∉ sorted names)
    /\ ("__main__" ∉ sorted names).

(** The fallback for a C file as the specification describes it: whenever
    the matched record yields no quoted literal, the file is named through
    the override table or through the suffix rule, or a diagnostic is
    printed and the file skipped; in no case is the run aborted. *)
Definition fallback_as_specified (p : path) (w : World) : Prop :=
  forall data m names,
    fs w !! p = Some (File data) ->
    or_else (Re.search MODULE_DEF_RE data) (Re.search PY2_INITMODULE_RE data)
      = Some m ->
    (forall s, matched_text (Re.group1 m) = Ok s -> quoted s = false) ->
    (scan_c_file p names w = (Ok (names ++ [Path.stem (Path.name p)]), w))
    \/ (scan_c_file p names w
        = (Ok (names ++ [List.hd "" (Str.split (Path.name p) "module")]), w))
    \/ (exists diagnostic,
          scan_c_file p names w
          = (Ok names, {| fs := fs w; processes := processes w;
                          console := console w ++ [diagnostic] |})).

(** ** A concrete environment and concrete worlds *)

Module Demo.

Definition q (s : string) : string := dquote +:+ s +:+ dquote.

(** The build script
      Extension(Q_socketQ, [QsocketmoduleQ])
      CARBON_EXTS = [Q_QtQ, x, Q_CarbonQ]
    (Q the double quote) and its tree. *)
Definition setup_text : string :=
  "Extension(" +:+ q "_socket" +:+ ", [" +:+ q "socketmodule.c" +:+ "])"
  +:+ newline
  +:+ "CARBON_EXTS = [" +:+ q "_Qt" +:+ ", x, " +:+ q "_Carbon" +:+ "]"
  +:+ newline.

Definition extension_call : Cst.node :=
  Cst.Call (Cst.Name "Extension")
    [Cst.Arg None (Cst.SimpleString (q "_socket")) "";
     Cst.Arg None
       (Cst.List [Cst.Element (Cst.SimpleString (q "socketmodule.c"))]) ""].

Definition carbon_assign : Cst.node :=
  Cst.Assign [Cst.AssignTarget (Cst.Name "CARBON_EXTS")]
    (Cst.List [Cst.Element (Cst.SimpleString (q "_Qt"));
               Cst.Element (Cst.Name "x");
               Cst.Element (Cst.SimpleString (q "_Carbon"))]).

Definition setup_tree : Cst.node :=
  Cst.Other [Cst.Other [Cst.Other [extension_call]];
             Cst.Other [carbon_assign]].

(** A script that only the grammars before 3.7 accept: there [async] is
    still a name. *)
Definition legacy_text : string := "async = 1" +:+ newline.
Definition legacy_tree : Cst.node :=
  Cst.Other [Cst.Other [Cst.Assign [Cst.AssignTarget (Cst.Name "async")]
                          (Cst.Other [])]].

Definition parse (data version : string) : parse_outcome :=
  if bool_decide (data = setup_text) || bool_decide (data = "")
  then Parsed (if bool_decide (data = "") then Cst.Other [] else setup_tree)
  else if bool_decide (data = legacy_text)
          && bool_decide (version ∈ ["3.0"; "3.1"; "3.3"; "3.5"; "3.6"])
  then Parsed legacy_tree
  else Rejected (ParserSyntaxError ("Syntax Error under " +:+ version)).

(** The value of a token without prefix and without escapes. *)
Definition plain_value (tok : string) : string := Str.strip_chars tok dquote.

Definition env : Env :=
  {| BASE_DIR := ["stdlibs"];
     sys_executable := "python3";
     run_process := fun _ files => (files, false);
     KNOWN_PYTHON_VERSION_STRINGS :=
       ["3.0"; "3.1"; "3.3"; "3.5"; "3.6"; "3.7"; "3.8"];
     parse_module := parse;
     evaluated_value := plain_value |}.

Definition world_of (files : list (path * fnode)) : World :=
  {| fs := list_to_map files; processes := []; console := [] |}.

Definition py38 : path := [".cache"; "Python-3.8.8"].

(** The tree of 3.8 with an empty build script, [Lib/__main__.py] and a
    C file whose module definition names the empty string. *)
Definition world_placeholder : World :=
  world_of
    [ ([".cache"], Dir); (py38, Dir);
      (py38 ++ ["setup.py"], File "");
      (py38 ++ ["Lib"], Dir);
      (py38 ++ ["Lib"; "__main__.py"], File "");
      (py38 ++ ["Modules"], Dir);
      (py38 ++ ["Modules"; "x.c"],
       File ("PyModuleDef m = {a, " +:+ q "" +:+ ", }")) ].

(** The tree of 3.8 with the build script above, some library entries,
    C files of every kind and a [config.c]. *)
Definition world_38 : World :=
  world_of
    [ ([".cache"], Dir); (py38, Dir);
      (py38 ++ ["setup.py"], File setup_text);
      (py38 ++ ["Lib"], Dir);
      (py38 ++ ["Lib"; "os.py"], File "");
      (py38 ++ ["Lib"; "test"], Dir);
      (py38 ++ ["Lib"; "__phello__.foo.py"], File "");
      (py38 ++ ["Lib"; "plat-mac"], Dir);
      (py38 ++ ["Lib"; "plat-mac"; "Carbon"], Dir);
      (py38 ++ ["Lib"; "plat-mac"; "ic.py"], File "");
      (py38 ++ ["Modules"], Dir);
      (py38 ++ ["Modules"; "foo.c"],
       File ("static struct PyModuleDef foomodule = { PyModuleDef_HEAD_INIT, "
             +:+ q "foo" +:+ ", NULL };"));
      (py38 ++ ["Modules"; "_sre.c"],
       File "static struct PyModuleDef sremodule = { H, SRE_MODULE, NULL };");
      (py38 ++ ["Modules"; "bar.c"],
       File "static struct PyModuleDef barmodule = { H, BAR, NULL };");
      (py38 ++ ["PC"], Dir);
      (py38 ++ ["PC"; "config.c"],
       File ("struct _inittab _PyImport_Inittab[] = { {" +:+ q "nt"
             +:+ ", PyInit_nt}, {" +:+ q "__main__" +:+ ", NULL}, {0, 0} };")) ].

(** A C file whose module definition has a bare [.m_name] as its second
    field. *)
Definition m_name_file : path := py38 ++ ["Modules"; "foo.c"].
Definition m_name_text : string := "PyModuleDef m = {a, .m_name }".
Definition world_m_name : World :=
  world_of [ (py38, Dir); (py38 ++ ["Modules"], Dir);
             (m_name_file, File m_name_text) ].

(** A C file with two module definitions and a legacy call. *)
Definition two_defs_text : string :=
  "PyModuleDef a = {H, " +:+ q "first" +:+ ", }; PyModuleDef b = {H, "
  +:+ q "second" +:+ ", }; x = Py_InitModule(" +:+ q "third" +:+ ", m);".
Definition world_two_defs : World :=
  world_of [ (py38, Dir); (py38 ++ ["Modules"], Dir);
             (m_name_file, File two_defs_text) ].

(** The tree of 3.8 whose [PC/config.c] lacks the marker. *)
Definition config_c : path := py38 ++ ["PC"; "config.c"].
Definition world_no_marker : World :=
  world_of
    [ ([".cache"], Dir); (py38, Dir); (py38 ++ ["setup.py"], File "");
      (py38 ++ ["PC"], Dir);
      (config_c, File ("{" +:+ q "nt" +:+ ", PyInit_nt}")) ].

(** Every release in the cache, each with an empty build script (the
    migrated one for the releases of major version 2) and one library
    module named after the release. *)
Definition cached_release (release : string * string)
    : list (path * fnode) :=
  let base := base_path_of release.2 in
  let setup :=
    if Str.startswith release.1 "2" then base ++ ["fixed"; "setup.py"]
    else base ++ ["setup.py"] in
  [ (base, Dir); (setup, File ""); (base ++ ["Lib"], Dir);
    (base ++ ["Lib"; "only" +:+ Str.remove_char "." release.1 +:+ ".py"],
     File "") ].

Definition world_all : World :=
  world_of (([".cache"], Dir) :: concat (cached_release <$> RELEASES)).

End Demo.

(** ** Further vocabulary *)

(** The grammar version [u] rejects [data] with a syntax error. *)
Definition syntax_rejected (env : Env) (data u : string) : Prop :=
  is_Some (syntax_error_of (parse_module env data u)).

(** The child processes of lines 100-117, in the order of the source. *)
Definition wget_process (url : string) : process :=
  Process ["wget"; "-c"; url] (Some ".cache").

Definition tar_process (url : string) : process :=
  Process ["tar"; "-xvzf"; archive_of url] (Some ".cache").

Definition lib2to3_process (env : Env) (url : string) : process :=
  Process
    [sys_executable env; "-m"; "lib2to3"; "-n"; "-w"; "-o";
     Path.to_str (Path.child (base_path_of url) "fixed");
     Path.to_str (Path.child (base_path_of url) "setup.py")] None.

Definition fetch_processes (env : Env) (version url : string) : list process :=
  wget_process url :: tar_process url
  :: (if Str.startswith version "2" then [lib2to3_process env url] else []).

(** Lines 122-124 as a function of the text read. *)
Definition omit_lines (text : string) : string :=
  Str.join ""
    (filter (fun line => Str.strip line ∉ PY2_LINES_TO_OMIT)
       (Str.splitlines_keepends text)).



(** A node of one of the two shapes that the visitor records [x] for. *)
Definition records (env : Env) (node : Cst.node) (x : string) : Prop :=
  (exists func kw tok star rest,
     node = Cst.Call func (Cst.Arg kw (Cst.SimpleString tok) star :: rest)
     /\ (func = Cst.Name "Extension" \/ func = Cst.Name "addMacExtension")
     /\ x = evaluated_value env tok)
  \/ (exists elements tok,
        node = Cst.Assign [Cst.AssignTarget (Cst.Name "CARBON_EXTS")]
                 (Cst.List elements)
        /\ (Cst.Element (Cst.SimpleString tok) ∈ elements
            \/ Cst.StarredElement (Cst.SimpleString tok) ∈ elements)
        /\ x = evaluated_value env tok).

(** ** Further concrete cases *)

Module Cases.

(** A parser that rejects every text under 3.8 with a syntax error, breaks
    off under 3.7 with another exception and accepts it under the older
    grammars. *)
Definition parse_deep (data version : string) : parse_outcome :=
  if bool_decide (version = "3.8")
  then Rejected (ParserSyntaxError "Syntax Error under 3.8")
  else if bool_decide (version = "3.7")
  then Rejected (ForeignError "RecursionError")
  else Parsed (Cst.Other []).

Definition env_deep : Env :=
  {| BASE_DIR := ["stdlibs"];
     sys_executable := "python3";
     run_process := fun _ files => (files, false);
     KNOWN_PYTHON_VERSION_STRINGS :=
       ["3.0"; "3.1"; "3.3"; "3.5"; "3.6"; "3.7"; "3.8"];
     parse_module := parse_deep;
     evaluated_value := Demo.plain_value |}.

(** Child processes that do what the three tools do to the files, as far
    as the script looks: [wget] leaves the archive, [tar] the tree with
    its [setup.py], lib2to3 a migrated script with one line of the
    denylist in it.  [tar] fails on the archive of 3.0. *)
Definition py27 : path := [".cache"; "Python-2.7.18"].

Definition migrated_text : string :=
  "import os" +:+ newline
  +:+ "    for fw in 'Tcl', 'Tk'  " +:+ newline
  +:+ "x = 1" +:+ newline.

Definition tools (pr : process) (files : gmap path fnode)
    : gmap path fnode * bool :=
  match argv pr with
  | "wget" :: _ => (<[[".cache"; "archive"] := File "tgz"]> files, true)
  | ["tar"; _; "Python-3.0.1.tgz"] => (files, false)
  | ["tar"; _; "Python-2.7.18.tgz"] =>
      (<[py27 ++ ["setup.py"] := File "print 1"]> (<[py27 := Dir]> files),
       true)
  | "tar" :: _ => (files, true)
  | _ => (<[py27 ++ ["fixed"; "setup.py"] := File migrated_text]> files, true)
  end.

Definition env_tools : Env :=
  {| BASE_DIR := ["stdlibs"];
     sys_executable := "python3";
     run_process := tools;
     KNOWN_PYTHON_VERSION_STRINGS := ["3.0"; "3.8"];
     parse_module := fun _ _ => Parsed (Cst.Other []);
     evaluated_value := Demo.plain_value |}.

Definition empty_world : World :=
  {| fs := ∅; processes := []; console := [] |}.

(** A C file whose module definition names the module by a designated
    initializer with a comment in it; the file bears a name of the
    override table. *)
Definition sre_file : path := [".cache"; "Python-3.8.8"; "Modules"; "_sre.c"].

Definition designated_text : string :=
  "static struct PyModuleDef m = {" +:+ newline
  +:+ "    PyModuleDef_HEAD_INIT," +:+ newline
  +:+ "    .m_name = /* the name */ " +:+ Demo.q "zz" +:+ "," +:+ newline
  +:+ "};" +:+ newline.

Definition world_designated : World :=
  {| fs := {[ sre_file := File designated_text ]};
     processes := []; console := [] |}.

End Cases.

(** * Properties *)

(** ** Reasoning about computations *)

Section MonadLemmas.

Context {A B : Type}.

Lemma bind_Ok (m : M A) (f : A -> M B) w b w' :
  bind m f w = (Ok b, w') <->
  exists a w1, m w = (Ok a, w1) /\ f a w1 = (Ok b, w').
Proof.
  unfold bind. destruct (m w) as [[a|e] w1]; split.
  - eauto.
  - intros (a' & w2 & [= <- <-] & ?). done.
  - done.
  - intros (? & ? & [=] & _).
Qed.

Lemma bind_Raise_l (m : M A) (f : A -> M B) w e w' :
  m w = (Raise e, w') -> bind m f w = (Raise e, w').
Proof. unfold bind. by intros ->. Qed.

Lemma bind_Ok_l (m : M A) (f : A -> M B) w a w1 :
  m w = (Ok a, w1) -> bind m f w = f a w1.
Proof. unfold bind. by intros ->. Qed.

End MonadLemmas.

Section Keeps.

Context {X : Type} (obs : World -> X).

Lemma keeps_ret {A} (a : A) : keeps obs (ret a).
Proof. done. Qed.

Lemma keeps_raise {A} e : keeps obs (@raise A e).
Proof. done. Qed.

Lemma keeps_lift {A} (r : result A) : keeps obs (lift r).
Proof. done. Qed.

Lemma keeps_bind {A B} (m : M A) (f : A -> M B) :
  keeps obs m -> (forall a, keeps obs (f a)) -> keeps obs (bind m f).
Proof.
  intros Hm Hf w. unfold bind. specialize (Hm w).
  destruct (m w) as [[a|e] w1]; simpl in *; [|done].
  by rewrite Hf.
Qed.

Lemma keeps_for_each {A B} (xs : list A) (body : A -> B -> M B) acc :
  (forall x b, keeps obs (body x b)) -> keeps obs (for_each xs body acc).
Proof.
  intros Hbody. revert acc.
  induction xs as [|x xs IH]; intros acc; simpl.
  - apply keeps_ret.
  - apply keeps_bind; auto.
Qed.

Lemma keeps_if {A} (b : bool) (m1 m2 : M A) :
  keeps obs m1 -> keeps obs m2 -> keeps obs (if b then m1 else m2).
Proof. by destruct b. Qed.

End Keeps.

(** The primitives other than [check_call] start no process; those other
    than [mkdir], [write_text] and [check_call] leave the files alone. *)
Section Primitives.

Implicit Types (p : path).

Lemma exists_keeps {X} (obs : World -> X) p : keeps obs (exists_ p).
Proof. done. Qed.
Lemma is_dir_keeps {X} (obs : World -> X) p : keeps obs (is_dir p).
Proof. done. Qed.
Lemma glob_all_keeps {X} (obs : World -> X) p : keeps obs (glob_all p).
Proof. done. Qed.
Lemma glob_c_keeps {X} (obs : World -> X) p : keeps obs (glob_c p).
Proof. done. Qed.
Lemma read_text_keeps {X} (obs : World -> X) p : keeps obs (read_text p).
Proof. intros w. unfold read_text. by destruct (fs w !! p) as [[]|]. Qed.
Lemma iterdir_keeps {X} (obs : World -> X) p : keeps obs (iterdir p).
Proof. intros w. unfold iterdir. by destruct (fs w !! p) as [[]|]. Qed.

Lemma print_keeps_fs line : keeps fs (print line).
Proof. done. Qed.
Lemma print_keeps_processes line : keeps processes (print line).
Proof. done. Qed.
Lemma write_text_keeps_processes p text : keeps processes (write_text p text).
Proof. done. Qed.
Lemma mkdir_keeps_processes p : keeps processes (mkdir_exist_ok p).
Proof.
  intros w. unfold mkdir_exist_ok.
  destruct (fs w !! p) as [[]|]; [done..|]. by case_match.
Qed.

End Primitives.

Create HintDb keeps.
#[export] Hint Resolve keeps_ret keeps_raise keeps_lift keeps_if
  exists_keeps is_dir_keeps glob_all_keeps glob_c_keeps read_text_keeps
  iterdir_keeps print_keeps_fs print_keeps_processes
  write_text_keeps_processes mkdir_keeps_processes : keeps.

(** Goes through the binds and loops of a computation. *)
Ltac keeps_tac :=
  repeat first
    [ progress eauto with keeps
    | apply keeps_bind; [|intros ?]
    | apply keeps_for_each; intros ? ?
    | apply keeps_if
    | match goal with
      | |- keeps _ (match ?x with _ => _ end) => destruct x
      | |- keeps _ (let _ := _ in _) => cbv zeta
      end ].

Section Frames.

Context (env : Env).

Lemma try_parse_keeps {X} (obs : World -> X) p : keeps obs (try_parse env p).
Proof. unfold try_parse. keeps_tac. Qed.

Lemma scan_plat_entry_keeps {X} (obs : World -> X) entry names :
  keeps obs (scan_plat_entry entry names).
Proof. unfold scan_plat_entry. keeps_tac. Qed.

Lemma scan_lib_entry_keeps {X} (obs : World -> X) p names :
  keeps obs (scan_lib_entry p names).
Proof.
  unfold scan_lib_entry. keeps_tac; apply scan_plat_entry_keeps.
Qed.

Lemma scan_inittab_keeps {X} (obs : World -> X) p names :
  keeps obs (scan_inittab p names).
Proof. unfold scan_inittab. keeps_tac. Qed.

Lemma scan_c_file_keeps_fs p names : keeps fs (scan_c_file p names).
Proof. unfold scan_c_file, scan_match. keeps_tac. Qed.

Lemma scan_c_file_keeps_processes p names :
  keeps processes (scan_c_file p names).
Proof. unfold scan_c_file, scan_match. keeps_tac. Qed.

Lemma scan_native_dir_keeps_fs base subdir names :
  keeps fs (scan_native_dir base subdir names).
Proof. unfold scan_native_dir. keeps_tac; apply scan_c_file_keeps_fs. Qed.

Lemma scan_native_dir_keeps_processes base subdir names :
  keeps processes (scan_native_dir base subdir names).
Proof.
  unfold scan_native_dir. keeps_tac; apply scan_c_file_keeps_processes.
Qed.

Lemma collect_keeps_fs version base setup :
  keeps fs (collect env version base setup).
Proof.
  unfold collect.
  apply keeps_bind; [apply try_parse_keeps|intros module].
  apply keeps_bind; [apply glob_all_keeps|intros libs].
  apply keeps_bind;
    [apply keeps_for_each; intros; apply scan_lib_entry_keeps|intros names1].
  apply keeps_bind;
    [apply keeps_for_each; intros; apply scan_native_dir_keeps_fs
    |intros names2].
  apply keeps_bind;
    [apply keeps_for_each; intros; apply scan_inittab_keeps|intros names3].
  keeps_tac.
Qed.

Lemma collect_keeps_processes version base setup :
  keeps processes (collect env version base setup).
Proof.
  unfold collect.
  apply keeps_bind; [apply try_parse_keeps|intros module].
  apply keeps_bind; [apply glob_all_keeps|intros libs].
  apply keeps_bind;
    [apply keeps_for_each; intros; apply scan_lib_entry_keeps|intros names1].
  apply keeps_bind;
    [apply keeps_for_each; intros; apply scan_native_dir_keeps_processes
    |intros names2].
  apply keeps_bind;
    [apply keeps_for_each; intros; apply scan_inittab_keeps|intros names3].
  keeps_tac.
Qed.

Lemma write_tmpl_keeps_processes name data :
  keeps processes (write_tmpl env name data).
Proof. unfold write_tmpl. keeps_tac. Qed.

(** With the tree of the release in the cache, [fetch] touches nothing
    and picks the build script by the major version alone. *)
Lemma fetch_cached version url w :
  is_Some (fs w !! base_path_of url) ->
  fetch env version url w =
    (Ok (base_path_of url,
         if Str.startswith version "2"
         then Path.child (Path.child (base_path_of url) "fixed") "setup.py"
         else Path.child (base_path_of url) "setup.py"), w).
Proof.
  intros Hthere. unfold fetch. cbv zeta.
  unfold bind at 1. unfold exists_.
  rewrite bool_decide_eq_true_2 by done. simpl.
  by destruct (Str.startswith version "2").
Qed.

End Frames.

(** ** The visitor *)

(** Induction over a tree through the children of each node. *)
Lemma node_children_ind (P : Cst.node -> Prop) :
  (forall n, Forall P (Cst.children_of n) -> P n) -> forall n, P n.
Proof.
  intros step. fix IH 1. intros n. apply step.
  destruct n as [| |f args| |es| | |ts v| |cs]; simpl.
  - constructor.
  - constructor.
  - constructor; [apply IH|]. induction args; constructor; auto.
  - repeat constructor. apply IH.
  - induction es; constructor; auto.
  - repeat constructor. apply IH.
  - repeat constructor. apply IH.
  - apply Forall_app. split; [|repeat constructor; apply IH].
    induction ts; constructor; auto.
  - repeat constructor. apply IH.
  - induction cs; constructor; auto.
Qed.

Section Visitor.

Context (env : Env).

(** [visit] is [on_visit] at the node, then a left fold over the children. *)
Lemma visit_children node acc :
  visit env node acc =
  foldl (fun acc c => visit env c acc) (on_visit env node acc)
    (Cst.children_of node).
Proof.
  assert (forall cs a,
    (fix visit_each (cs : list Cst.node) (acc : list string) : list string :=
       match cs with
       | [] => acc
       | c :: cs' => visit_each cs' (visit env c acc)
       end) cs a = foldl (fun acc c => visit env c acc) a cs) as each.
  { induction cs; simpl; auto. }
  destruct node; simpl; rewrite ?each, ?foldl_app; reflexivity.
Qed.

Lemma record_elements_omap acc elements :
  foldl (record_element env) acc elements =
  acc ++ omap (string_element env) elements.
Proof.
  revert acc. induction elements as [|item elements IH]; intros acc; simpl.
  - by rewrite app_nil_r.
  - rewrite IH.
    destruct item as [| | | | |[]|[]| | |]; simpl;
      by rewrite <- ?app_assoc.
Qed.

(** A visit only appends. *)
Lemma on_visit_grows node acc : acc `prefix_of` on_visit env node acc.
Proof.
  destruct node; simpl; try done.
  - unfold visit_Call. destruct (extract_Call _); [by eexists|done].
  - unfold visit_Assign. destruct (extract_Assign _); [|done].
    rewrite record_elements_omap. by eexists.
Qed.

Lemma visit_all_grows cs :
  Forall (fun c => forall acc, acc `prefix_of` visit env c acc) cs ->
  forall acc, acc `prefix_of` foldl (fun acc c => visit env c acc) acc cs.
Proof.
  induction 1 as [|c cs Hc _ IH]; intros acc; simpl; [done|].
  etrans; [apply Hc|apply IH].
Qed.

Lemma visit_grows node : forall acc, acc `prefix_of` visit env node acc.
Proof.
  induction node as [node IH] using node_children_ind. intros acc.
  rewrite visit_children.
  etrans; [apply on_visit_grows|by apply visit_all_grows].
Qed.

(** Every node of the tree is visited: what its own visit appends is in
    the final list. *)
Lemma visit_reaches node root :
  Cst.occurs_in node root ->
  forall acc, exists acc1,
    on_visit env node acc1 `prefix_of` visit env root acc.
Proof.
  induction 1 as [|root c Hc _ IH]; intros acc.
  - exists acc. rewrite visit_children.
    apply visit_all_grows, Forall_forall. intros. apply visit_grows.
  - rewrite visit_children.
    apply list_elem_of_split in Hc as (before & after & ->).
    rewrite foldl_app. simpl.
    destruct (IH (foldl (fun acc c => visit env c acc)
                    (on_visit env root acc) before)) as [acc1 Hacc1].
    exists acc1. etrans; [apply Hacc1|].
    apply visit_all_grows, Forall_forall. intros. apply visit_grows.
Qed.

End Visitor.

(** C4.  A call whose callee is the name [Extension] or [addMacExtension]
    and whose first argument is a literal string makes [visit_Call] append
    the evaluated value of that string, whatever the arguments after it
    are (and whether or not the first one carries a keyword or a star: a
    positional argument is the case [kw = None], [star = ""]).  When such a
    call occurs anywhere in the parsed build script, the value is among the
    names the visitor has collected at the end of the traversal. *)
Theorem visit_records_extension_call
    env module func kw tok star rest :
  func = Cst.Name "Extension" \/ func = Cst.Name "addMacExtension" ->
  (forall names,
     visit_Call env
       (Cst.Call func (Cst.Arg kw (Cst.SimpleString tok) star :: rest)) names
     = names ++ [evaluated_value env tok])
  /\ (Cst.occurs_in
        (Cst.Call func (Cst.Arg kw (Cst.SimpleString tok) star :: rest)) module ->
      forall names, evaluated_value env tok ∈ visit env module names).
Proof.
  intros Hfunc.
  assert (forall names,
    visit_Call env
      (Cst.Call func (Cst.Arg kw (Cst.SimpleString tok) star :: rest)) names
    = names ++ [evaluated_value env tok]) as Hcall.
  { intros names. unfold visit_Call. simpl.
    destruct Hfunc as [Hf|Hf]; rewrite Hf; reflexivity. }
  split; [done|].
  intros Hoccurs names.
  destruct (visit_reaches env _ _ Hoccurs names) as [acc1 [more Hmore]].
  rewrite Hmore. simpl. rewrite Hcall.
  apply elem_of_app. left. apply elem_of_app. right. apply list_elem_of_here.
Qed.

(** The build script [Extension(Q_socketQ, [Q socketmodule.c Q])] yields
    [_socket]. *)
Lemma visit_records_extension_call_witness :
  evaluated_value Demo.env (Demo.q "_socket") = "_socket"
  /\ evaluated_value Demo.env (Demo.q "_socket")
       ∈ visit Demo.env Demo.setup_tree [].
Proof.
  split; [reflexivity|].
  refine (proj2 (visit_records_extension_call Demo.env Demo.setup_tree
                   (Cst.Name "Extension") None (Demo.q "_socket") "" _
                   (or_introl eq_refl)) _ []).
  eapply Cst.occurs_below; [simpl; apply list_elem_of_here|].
  eapply Cst.occurs_below; [simpl; apply list_elem_of_here|].
  eapply Cst.occurs_below; [simpl; apply list_elem_of_here|].
  apply Cst.occurs_here.
Defined.

(** C5.  For an assignment whose only target is the name [CARBON_EXTS] and
    whose value is a literal list, [visit_Assign] appends the evaluated
    value of every element that is a literal string, in order, and nothing
    for any other element.  When such an assignment occurs anywhere in the
    parsed build script, each of these values is among the names the
    visitor has collected at the end of the traversal. *)
Theorem visit_records_carbon_exts env module elements :
  (forall names,
     visit_Assign env
       (Cst.Assign [Cst.AssignTarget (Cst.Name "CARBON_EXTS")]
          (Cst.List elements)) names
     = names ++ omap (string_element env) elements)
  /\ (forall tok,
        Cst.Element (Cst.SimpleString tok) ∈ elements ->
        Cst.occurs_in
          (Cst.Assign [Cst.AssignTarget (Cst.Name "CARBON_EXTS")]
             (Cst.List elements)) module ->
        forall names, evaluated_value env tok ∈ visit env module names)
  /\ (forall v names,
        (forall tok, v <> Cst.SimpleString tok) ->
        record_element env names (Cst.Element v) = names).
Proof.
  assert (forall names,
    visit_Assign env
      (Cst.Assign [Cst.AssignTarget (Cst.Name "CARBON_EXTS")]
         (Cst.List elements)) names
    = names ++ omap (string_element env) elements) as Hassign.
  { intros names. unfold visit_Assign. simpl. apply record_elements_omap. }
  split; [done|]. split.
  - intros tok Hin Hoccurs names.
    destruct (visit_reaches env _ _ Hoccurs names) as [acc1 [more Hmore]].
    rewrite Hmore. simpl. rewrite Hassign.
    apply elem_of_app. left. apply elem_of_app. right.
    apply list_elem_of_omap. by eexists.
  - intros v names Hv. destruct v; try done. by destruct (Hv value).
Qed.

(** The assignment [CARBON_EXTS = [Q_QtQ, x, Q_CarbonQ]] yields both
    [_Qt] and [_Carbon], and nothing for [x]. *)
Lemma visit_records_carbon_exts_witness :
  visit_Assign Demo.env Demo.carbon_assign [] = ["_Qt"; "_Carbon"]
  /\ "_Qt" ∈ visit Demo.env Demo.setup_tree []
  /\ "_Carbon" ∈ visit Demo.env Demo.setup_tree [].
Proof.
  pose proof (visit_records_carbon_exts Demo.env Demo.setup_tree
    [Cst.Element (Cst.SimpleString (Demo.q "_Qt"));
     Cst.Element (Cst.Name "x");
     Cst.Element (Cst.SimpleString (Demo.q "_Carbon"))]) as (Hassign & Hin & _).
  assert (Cst.occurs_in Demo.carbon_assign Demo.setup_tree) as Hoccurs.
  { eapply Cst.occurs_below;
      [simpl; apply list_elem_of_further, list_elem_of_here|].
    eapply Cst.occurs_below; [simpl; apply list_elem_of_here|].
    apply Cst.occurs_here. }
  split; [exact (Hassign [])|]. split.
  - exact (Hin (Demo.q "_Qt") ltac:(apply list_elem_of_here) Hoccurs []).
  - exact (Hin (Demo.q "_Carbon")
             ltac:(do 2 apply list_elem_of_further; apply list_elem_of_here)
             Hoccurs []).
Defined.

(** ** The parser *)

Section Parser.

Context (env : Env) (data : string).

(** Versions rejected with a syntax error are passed over; the first of
    their errors is kept unless one was kept before. *)
Lemma try_parse_loop_skip newer rest parse_error :
  Forall (fun u => is_Some (syntax_error_of (parse_module env data u)))
    newer ->
  try_parse_loop env (newer ++ rest) data parse_error =
  try_parse_loop env rest data
    (or_else parse_error
       (head newer ≫= fun u => syntax_error_of (parse_module env data u))).
Proof.
  intros Hnewer. revert parse_error.
  induction Hnewer as [|u newer [e He] _ IH]; intros parse_error; simpl.
  - by destruct parse_error.
  - destruct (parse_module env data u) as [|[]]; simplify_eq/=.
    rewrite IH. by destruct parse_error, newer.
Qed.

End Parser.

(** C3.  [try_parse] goes through libcst's grammar versions in the reverse
    of their listed order, the last listed (newest) first.  When every
    version before [v] in that order rejects the text with a syntax error
    and [v] parses it, the result is that parse: a text valid only under an
    older grammar succeeds by falling back.  When every version rejects
    the text with a syntax error, the error raised is the one of the first
    version tried. *)
Theorem try_parse_newest_first env data newer :
  Forall (fun u => exists e,
            parse_module env data u = Rejected (ParserSyntaxError e)) newer ->
  (forall v older module,
     reverse (KNOWN_PYTHON_VERSION_STRINGS env) = newer ++ v :: older ->
     parse_module env data v = Parsed module ->
     try_parse_data env data = Ok module)
  /\ (forall first rest e,
        reverse (KNOWN_PYTHON_VERSION_STRINGS env) = newer ->
        newer = first :: rest ->
        parse_module env data first = Rejected (ParserSyntaxError e) ->
        try_parse_data env data = Raise (ParserSyntaxError e))
  /\ (forall p w,
        fs w !! p = Some (File data) ->
        try_parse env p w = (try_parse_data env data, w)).
Proof.
  intros Hnewer.
  assert (Forall (fun u => is_Some (syntax_error_of (parse_module env data u)))
            newer) as Hskip.
  { eapply Forall_impl; [exact Hnewer|]. intros u [e ->]. by eexists. }
  unfold try_parse_data. repeat split.
  - intros v older module -> Hv.
    rewrite try_parse_loop_skip by done. simpl. by rewrite Hv.
  - intros first rest e -> -> Hfirst.
    rewrite <- (app_nil_r (first :: rest)).
    rewrite try_parse_loop_skip by done. simpl. by rewrite Hfirst.
  - intros p w Hp. unfold try_parse, bind, read_text. by rewrite Hp.
Qed.

(** In the concrete environment the grammars 3.8 and 3.7 reject
    [async = 1] and 3.6 parses it; the text [x x] is rejected by all seven
    and the error is the one of 3.8. *)
Lemma try_parse_newest_first_witness :
  try_parse_data Demo.env Demo.legacy_text = Ok Demo.legacy_tree
  /\ try_parse_data Demo.env "x x"
     = Raise (ParserSyntaxError "Syntax Error under 3.8").
Proof.
  split.
  - refine (proj1 (try_parse_newest_first Demo.env Demo.legacy_text
                     ["3.8"; "3.7"] _) "3.6" ["3.5"; "3.3"; "3.1"; "3.0"]
              Demo.legacy_tree eq_refl eq_refl).
    repeat constructor; eexists; reflexivity.
  - refine (proj1 (proj2 (try_parse_newest_first Demo.env "x x"
                            ["3.8"; "3.7"; "3.6"; "3.5"; "3.3"; "3.1"; "3.0"] _))
              "3.8" _ "Syntax Error under 3.8" eq_refl eq_refl eq_refl).
    repeat constructor; eexists; reflexivity.
Defined.

(** ** One release *)

(** Splits a successful run of [x ←ₘ m; k] into the run of [m] and the run
    of [k]. *)
Ltac inv_bind H :=
  let a := fresh "a" in
  let w := fresh "w" in
  let Hm := fresh "Hrun" in
  apply bind_Ok in H as (a & w & Hm & H).

Lemma run_pair {A} (m : M A) w a : (m w).1 = Ok a -> m w = (Ok a, (m w).2).
Proof. destruct (m w) as [r w']. simpl. by intros ->. Qed.

(** A run that returns a value passing a boolean check, found by
    evaluation. *)
Lemma run_check {A} (m : M A) w (check : A -> bool) :
  match (m w).1 with Ok a => check a | Raise _ => false end = true ->
  exists a, m w = (Ok a, (m w).2) /\ check a = true.
Proof. destruct (m w) as [[a|e] w']; simpl; [eauto|done]. Qed.

Section Release.

Context (env : Env).

Lemma collect_Ok_inv version base setup w l w' :
  collect env version base setup w = (Ok l, w') ->
  exists t names,
    version_tuple version = Ok t /\ l = add_aliases t names.
Proof.
  unfold collect. intros H.
  do 6 inv_bind H.
  unfold lift in *. unfold ret in H. simplify_eq. eauto.
Qed.

(** A successful [regen]: the tree is fetched, the names are collected,
    their set is written as the table of the release and returned. *)
Lemma regen_Ok_inv version w names w' :
  regen env version w = (Ok names, w') ->
  exists url paths w1 l w2,
    assoc version RELEASES = Some url
    /\ fetch env version url w = (Ok paths, w1)
    /\ collect env version paths.1 paths.2 w1 = (Ok l, w2)
    /\ names = list_to_set l
    /\ w' = {| fs := <[Path.child (BASE_DIR env) (table_name version)
                       := File (table_text (sorted names))]> (fs w2);
               processes := processes w2;
               console := console w2 ++ [version +:+ " done."] |}.
Proof.
  unfold regen. intros H.
  inv_bind H. unfold lift in Hrun.
  destruct (assoc version RELEASES) as [url|] eqn:Hurl; simplify_eq.
  inv_bind H. inv_bind H. inv_bind H. inv_bind H.
  unfold ret in H. unfold print in Hrun2.
  unfold write_tmpl, write_text in Hrun1. simplify_eq/=.
  eexists _, _, _, _, _. repeat split; eauto.
Qed.

Lemma sorted_Sorted data : Sorted String.le (sorted data).
Proof. apply (Sorted_merge_sort String.le). Qed.

Lemma sorted_Permutation data : sorted data ≡ₚ elements data.
Proof. apply merge_sort_Permutation. Qed.

Lemma sorted_NoDup data : NoDup (sorted data).
Proof. rewrite sorted_Permutation. apply NoDup_elements. Qed.

Lemma elem_of_sorted x data : x ∈ sorted data <-> x ∈ data.
Proof. rewrite sorted_Permutation. apply elem_of_elements. Qed.

Lemma record_inittab_spec names ms x :
  x ∈ foldl record_inittab names ms <->
  x ∈ names \/ (x <> "__main__" /\ exists m, m ∈ ms /\ Re.group1 m = x).
Proof.
  revert names. induction ms as [|m ms IH]; intros names; simpl.
  - split; [auto|]. intros [|(_ & m & Hm & _)]; [done|]. by inv Hm.
  - rewrite IH. unfold record_inittab.
    case_bool_decide as Hmain;
      [|rewrite elem_of_app, list_elem_of_singleton];
      setoid_rewrite elem_of_cons; naive_solver.
Qed.

End Release.

(** C7.  When the extraction directory of the release is already in the
    cache, [regen] starts no child process at all (no download, no
    extraction, no syntax migration), whether it then succeeds or raises:
    the log of processes is what it was.  The fetching step leaves the
    world as it is and picks, for a release of major version 2, the
    migrated build script in the [fixed] subdirectory, and the original
    [setup.py] otherwise. *)
Theorem regen_cached_runs_no_process env version url w :
  assoc version RELEASES = Some url ->
  is_Some (fs w !! base_path_of url) ->
  processes (regen env version w).2 = processes w
  /\ fetch env version url w =
       (Ok (base_path_of url,
            if Str.startswith version "2"
            then Path.child (Path.child (base_path_of url) "fixed") "setup.py"
            else Path.child (base_path_of url) "setup.py"), w).
Proof.
  intros Hurl Hthere. split; [|by apply fetch_cached].
  unfold regen. rewrite Hurl.
  rewrite (bind_Ok_l _ _ w url w) by done.
  rewrite (bind_Ok_l _ _ _ _ _ (fetch_cached env version url w Hthere)).
  revert w Hthere. intros w _.
  apply (keeps_bind processes); [apply collect_keeps_processes|].
  intros names.
  apply keeps_bind; [apply write_tmpl_keeps_processes|]. intros _.
  apply keeps_bind; [apply print_keeps_processes|]. intros _.
  apply keeps_ret.
Qed.

(** With every release in the cache, release 2.7 is regenerated without a
    child process and from [fixed/setup.py]. *)
Lemma regen_cached_runs_no_process_witness :
  processes (regen Demo.env "2.7" Demo.world_all).2 = []
  /\ fetch Demo.env "2.7"
       "https://www.python.org/ftp/python/2.7.18/Python-2.7.18.tgz"
       Demo.world_all
     = (Ok ([".cache"; "Python-2.7.18"],
            [".cache"; "Python-2.7.18"; "fixed"; "setup.py"]),
        Demo.world_all).
Proof.
  refine (regen_cached_runs_no_process Demo.env "2.7"
    "https://www.python.org/ftp/python/2.7.18/Python-2.7.18.tgz"
    Demo.world_all eq_refl _).
  vm_compute. eexists. reflexivity.
Defined.

(** C6.  Whatever the world holds, a successful [regen] of a release whose
    version, read as a tuple of integers, is at least (3, 3) returns and
    writes a set that contains [_frozen_importlib], and from (3, 5) on also
    [_frozen_importlib_external].  The version 3.10 is read as (3, 10),
    which is above both thresholds, although the string [3.10] is below
    the string [3.3]. *)
Theorem regen_adds_bootstrap_aliases env version w names w' t :
  regen env version w = (Ok names, w') ->
  version_tuple version = Ok t ->
  (tuple_ge t [3; 3]%Z = true ->
     "_frozen_importlib" ∈ names
     /\ "_frozen_importlib" ∈ sorted names)
  /\ (tuple_ge t [3; 5]%Z = true ->
        "_frozen_importlib_external" ∈ names
        /\ "_frozen_importlib_external" ∈ sorted names)
  /\ fs w' !! Path.child (BASE_DIR env) (table_name version)
     = Some (File (table_text (sorted names)))
  /\ version_tuple "3.10" = Ok [3; 10]%Z
  /\ tuple_ge [3; 10]%Z [3; 3]%Z = true
  /\ tuple_ge [3; 10]%Z [3; 5]%Z = true
  /\ String.ltb "3.10" "3.3" = true.
Proof.
  intros Hregen Ht.
  apply regen_Ok_inv in Hregen
    as (url & paths & w1 & l & w2 & _ & _ & Hcollect & -> & ->).
  apply collect_Ok_inv in Hcollect as (t' & names0 & Ht' & ->).
  rewrite Ht in Ht'. injection Ht' as <-.
  repeat split; try reflexivity.
  - apply elem_of_list_to_set. unfold add_aliases. rewrite H.
    destruct (tuple_ge t [3; 5]%Z); rewrite !elem_of_app;
      rewrite !list_elem_of_singleton; auto.
  - apply elem_of_sorted, elem_of_list_to_set. unfold add_aliases. rewrite H.
    destruct (tuple_ge t [3; 5]%Z); rewrite !elem_of_app;
      rewrite !list_elem_of_singleton; auto.
  - apply elem_of_list_to_set. unfold add_aliases. rewrite H.
    rewrite !elem_of_app, !list_elem_of_singleton; auto.
  - apply elem_of_sorted, elem_of_list_to_set. unfold add_aliases. rewrite H.
    rewrite !elem_of_app, !list_elem_of_singleton; auto.
  - simpl. apply lookup_insert_eq.
Qed.

(** Release 3.10, cached with an empty build script and one library
    module: the set returned holds that module and both aliases. *)
Lemma regen_adds_bootstrap_aliases_witness :
  exists names w',
    regen Demo.env "3.10" Demo.world_all = (Ok names, w')
    /\ sorted names
       = ["_frozen_importlib"; "_frozen_importlib_external"; "only310"]
    /\ "_frozen_importlib" ∈ names
    /\ "_frozen_importlib_external" ∈ names.
Proof.
  destruct (run_check (regen Demo.env "3.10") Demo.world_all
              (fun names => bool_decide
                 (sorted names = ["_frozen_importlib";
                                  "_frozen_importlib_external"; "only310"])))
    as (names & Hrun & Hcheck); [vm_compute; reflexivity|].
  apply bool_decide_eq_true in Hcheck.
  pose proof (regen_adds_bootstrap_aliases Demo.env "3.10" Demo.world_all
                names _ [3; 10]%Z Hrun eq_refl) as (H33 & H35 & _).
  exists names, (regen Demo.env "3.10" Demo.world_all).2.
  split; [exact Hrun|]. split; [exact Hcheck|].
  split; [exact (proj1 (H33 eq_refl))|exact (proj1 (H35 eq_refl))].
Defined.

(** C1, as amended.  The table written for a release lists exactly the
    names collected for it, in the order of their code points and each
    once.  [__main__] is left out only among the names taken from the
    platform init tables: that scan never adds it.  (Nothing filters the
    empty string or a [__main__] that comes from another scan.) *)
Theorem regen_table_sorted_distinct env version w names w' :
  regen env version w = (Ok names, w') ->
  fs w' !! Path.child (BASE_DIR env) (table_name version)
    = Some (File (table_text (sorted names)))
  /\ Sorted String.le (sorted names)
  /\ NoDup (sorted names)
  /\ (forall x, x ∈ sorted names <-> x ∈ names)
  /\ (forall collected matches,
        "__main__" ∈ foldl record_inittab collected matches ->
        "__main__" ∈ collected).
Proof.
  intros Hregen.
  apply regen_Ok_inv in Hregen
    as (url & paths & w1 & l & w2 & _ & _ & _ & -> & ->).
  split; [simpl; apply lookup_insert_eq|].
  split; [apply sorted_Sorted|].
  split; [apply sorted_NoDup|].
  split; [intros x; apply elem_of_sorted|].
  intros collected matches [|[? _]]%record_inittab_spec; done.
Qed.

(** Release 3.8 with the build script, library entries, C files and the
    [config.c] of the concrete world: twelve names, sorted. *)
Lemma regen_table_sorted_distinct_witness :
  exists names w',
    regen Demo.env "3.8" Demo.world_38 = (Ok names, w')
    /\ sorted names
       = ["Carbon"; "_Carbon"; "_Qt"; "__phello__"; "_frozen_importlib";
          "_frozen_importlib_external"; "_socket"; "_sre"; "foo"; "ic"; "nt";
          "os"]
    /\ Sorted String.le (sorted names)
    /\ NoDup (sorted names).
Proof.
  destruct (run_check (regen Demo.env "3.8") Demo.world_38
              (fun names => bool_decide
                 (sorted names
                  = ["Carbon"; "_Carbon"; "_Qt"; "__phello__";
                     "_frozen_importlib"; "_frozen_importlib_external";
                     "_socket"; "_sre"; "foo"; "ic"; "nt"; "os"])))
    as (names & Hrun & Hcheck); [vm_compute; reflexivity|].
  apply bool_decide_eq_true in Hcheck.
  pose proof (regen_table_sorted_distinct Demo.env "3.8" Demo.world_38
                names _ Hrun) as (_ & Hsorted & Hnodup & _).
  exists names, (regen Demo.env "3.8" Demo.world_38).2.
  split; [exact Hrun|]. split; [exact Hcheck|].
  split; [exact Hsorted|exact Hnodup].
Defined.

(** C1 as stated fails: with [Lib/__main__.py] in the tree and a C file
    whose module definition names the empty string, the table of 3.8
    lists both [__main__] and the empty string. *)
Lemma regen_table_lists_placeholder :
  ~ table_as_specified Demo.env "3.8" Demo.world_placeholder.
Proof.
  intros Hclaim.
  destruct (run_check (regen Demo.env "3.8") Demo.world_placeholder
              (fun names => bool_decide
                 (sorted names = [""; "__main__"; "_frozen_importlib";
                                  "_frozen_importlib_external"])))
    as (names & Hrun & Hcheck); [vm_compute; reflexivity|].
  apply bool_decide_eq_true in Hcheck.
  destruct (Hclaim _ _ Hrun) as (_ & _ & _ & Hempty & Hmain).
  apply Hmain. rewrite Hcheck.
  apply list_elem_of_further, list_elem_of_here.
Qed.

(** ** All releases *)

Lemma startswith_2_not_3 v :
  Str.startswith v "2" = true -> Str.startswith v "3" = false.
Proof.
  destruct v as [|c v]; [done|]. unfold Str.startswith.
  cbn -[ascii_dec].
  destruct (ascii_dec "2" c) as [<-|]; [|done]. by intros _.
Qed.

Lemma union_of_major_cons major v names runs :
  union_of_major major ((v, names) :: runs) =
  if Str.startswith v major
  then names ∪ union_of_major major runs
  else union_of_major major runs.
Proof.
  unfold union_of_major. rewrite filter_cons. simpl.
  destruct (Str.startswith v major); by case_decide.
Qed.

Section AllReleases.

Context (env : Env).

(** The loop of [regen_all] is the sequence of the runs of [regen], and
    its two accumulators grow by the unions of what the runs returned. *)
Lemma regen_loop_spec versions acc w acc' w' :
  for_each versions (regen_step env) acc w = (Ok acc', w') ->
  exists runs,
    regen_each env versions w = (Ok runs, w')
    /\ runs.*1 = versions
    /\ acc'.1 = acc.1 ∪ union_of_major "2" runs
    /\ acc'.2 = acc.2 ∪ union_of_major "3" runs.
Proof.
  revert acc w. induction versions as [|v versions IH]; intros acc w H.
  - unfold for_each, ret in H. simplify_eq. exists [].
    repeat split; unfold union_of_major; simpl; set_solver.
  - simpl in H. inv_bind H. unfold regen_step in Hrun. inv_bind Hrun.
    apply IH in H as (runs & Heach & Hversions & H2 & H3).
    exists ((v, a0) :: runs). simpl.
    rewrite !union_of_major_cons.
    destruct (Str.startswith v "2") eqn:Hv2.
    + rewrite (startswith_2_not_3 v Hv2). unfold ret in Hrun.
      simplify_eq/=. unfold bind at 1. rewrite Hrun0.
      unfold bind at 1. rewrite Heach.
      repeat split; [|done]. set_solver.
    + destruct (Str.startswith v "3") eqn:Hv3; [|done].
      unfold ret in Hrun. simplify_eq/=. unfold bind at 1. rewrite Hrun0.
      unfold bind at 1. rewrite Heach.
      repeat split; [done|]. set_solver.
Qed.

End AllReleases.

(** C2.  A successful [regen_all] has run [regen] on every key of
    [RELEASES] in order; at its end [py2.py] holds the union of the sets
    those runs returned for the versions starting with 2, [py3.py] the
    union for the versions starting with 3, and [py.py] the union of the
    two.  Each run of [regen] returns exactly the set that it has just
    written to the table of its release. *)
Theorem regen_all_aggregates env w w' :
  regen_all env w = (Ok (), w') ->
  (exists runs w1,
     regen_each env (RELEASES.*1) w = (Ok runs, w1)
     /\ runs.*1 = RELEASES.*1
     /\ fs w' !! Path.child (BASE_DIR env) "py2.py"
        = Some (File (table_text (sorted (union_of_major "2" runs))))
     /\ fs w' !! Path.child (BASE_DIR env) "py3.py"
        = Some (File (table_text (sorted (union_of_major "3" runs))))
     /\ fs w' !! Path.child (BASE_DIR env) "py.py"
        = Some (File (table_text
                  (sorted (union_of_major "2" runs ∪ union_of_major "3" runs)))))
  /\ (forall v w0 names w0',
        regen env v w0 = (Ok names, w0') ->
        fs w0' !! Path.child (BASE_DIR env) (table_name v)
        = Some (File (table_text (sorted names)))).
Proof.
  intros H. split.
  - unfold regen_all in H. inv_bind H.
    apply regen_loop_spec in Hrun as (runs & Heach & Hversions & H2 & H3).
    simpl in H2, H3. rewrite (left_id_L ∅ (∪)) in H2, H3.
    do 3 inv_bind H.
    unfold write_tmpl, write_text in *. unfold print in H. simplify_eq/=.
    exists runs, w0. rewrite H2, H3.
    assert (forall x y : string, x <> y ->
              Path.child (BASE_DIR env) x <> Path.child (BASE_DIR env) y)
      as Hne.
    { intros x y Hxy Heq. apply app_inv_head in Heq. congruence. }
    repeat split; [done..| | |].
    + rewrite !lookup_insert_ne by (by apply Hne). apply lookup_insert_eq.
    + rewrite lookup_insert_ne by (by apply Hne). apply lookup_insert_eq.
    + apply lookup_insert_eq.
  - intros v w0 names w0' Hregen.
    apply regen_Ok_inv in Hregen
      as (url & paths & w1 & l & w2 & _ & _ & _ & -> & ->).
    simpl. apply lookup_insert_eq.
Qed.

(** With every release in the cache, each with one library module of its
    own: the aggregates are the unions of the sixteen sets. *)
Lemma regen_all_aggregates_witness :
  exists runs w1,
    regen_each Demo.env (RELEASES.*1) Demo.world_all = (Ok runs, w1)
    /\ runs.*1 = RELEASES.*1
    /\ fs (regen_all Demo.env Demo.world_all).2 !! ["stdlibs"; "py2.py"]
       = Some (File (table_text (sorted (union_of_major "2" runs))))
    /\ fs (regen_all Demo.env Demo.world_all).2 !! ["stdlibs"; "py3.py"]
       = Some (File (table_text (sorted (union_of_major "3" runs))))
    /\ fs (regen_all Demo.env Demo.world_all).2 !! ["stdlibs"; "py.py"]
       = Some (File (table_text
                 (sorted (union_of_major "2" runs ∪ union_of_major "3" runs)))).
Proof.
  destruct (run_check (regen_all Demo.env) Demo.world_all (fun _ => true))
    as ([] & Hrun & _); [vm_compute; reflexivity|].
  exact (proj1 (regen_all_aggregates Demo.env Demo.world_all _ Hrun)).
Defined.

(** ** Splitting and searching *)

(** A text without the separator is not cut. *)
Lemma split_go_absent sep s cur :
  Str.contains sep s = false ->
  Str.split_go sep s 0 cur = [String.rev_app cur s].
Proof.
  revert cur. induction s as [|c s IH]; intros cur Habsent.
  - reflexivity.
  - cbn [Str.contains] in Habsent. apply orb_false_iff in Habsent as [Hhere Hs].
    cbn [Str.split_go]. rewrite Hhere. by rewrite IH.
Qed.

Lemma split_absent sep s :
  Str.contains sep s = false -> Str.split s sep = [s].
Proof. intros. unfold Str.split. by rewrite split_go_absent. Qed.

(** [search] returns the match at the first position where the pattern
    matches at all. *)
Lemma search_from_leftmost r s i m :
  Re.search_from r s i = Some m ->
  exists j,
    Re.m_start m = i + j
    /\ Re.gmatch_at r (Re.drop j s) = Some (Re.m_len m, Re.group1 m)
    /\ forall j', j' < j -> Re.gmatch_at r (Re.drop j' s) = None.
Proof.
  revert i. induction s as [|c s IH]; intros i; cbn [Re.search_from].
  - destruct (Re.gmatch_at r "") as [[n g]|] eqn:Hhere; [|done].
    intros [= <-]. exists 0. simpl. split; [lia|]. split; [done|]. lia.
  - destruct (Re.gmatch_at r (String c s)) as [[n g]|] eqn:Hhere.
    + intros [= <-]. exists 0. simpl. split; [lia|]. split; [done|]. lia.
    + intros (j & Hstart & Hmatch & Hbefore)%IH.
      exists (S j). split; [lia|]. split; [done|].
      intros [|j'] Hj'; [done|]. apply Hbefore. lia.
Qed.

Section NativeScan.

Implicit Types (p : path) (w : World).

(** Reading a file that is there. *)
Lemma scan_c_file_read p names w data :
  fs w !! p = Some (File data) ->
  scan_c_file p names w =
  match or_else (Re.search MODULE_DEF_RE data)
                (Re.search PY2_INITMODULE_RE data) with
  | Some m => scan_match p (Re.group1 m) names w
  | None => (Ok names, w)
  end.
Proof.
  intros Hp. unfold scan_c_file, bind at 1, read_text. rewrite Hp.
  by destruct (or_else _ _).
Qed.

(** What [scan_match] does once the text [s] is there. *)
Lemma scan_match_resolved p g s names w :
  matched_text g = Ok s ->
  scan_match p g names w =
  match resolve p s with
  | Append name => (Ok (names ++ [name]), w)
  | Skip diagnostic =>
      (Ok names, {| fs := fs w; processes := processes w;
                    console := console w ++ [diagnostic] |})
  end.
Proof.
  intros Hs. unfold scan_match, bind at 1, lift. rewrite Hs.
  by destruct (resolve p s).
Qed.

Lemma scan_match_raises p g e names w :
  matched_text g = Raise e -> scan_match p g names w = (Raise e, w).
Proof. intros Hs. unfold scan_match, bind, lift. by rewrite Hs. Qed.

(** A match adds one name or none. *)
Lemma scan_match_one_name p g names w names' w' :
  scan_match p g names w = (Ok names', w') ->
  names' = names \/ exists name, names' = names ++ [name].
Proof.
  destruct (matched_text g) as [s|e] eqn:Hs.
  - rewrite (scan_match_resolved _ _ _ _ _ Hs).
    destruct (resolve p s); intros [= <- <-]; eauto.
  - by rewrite (scan_match_raises _ _ _ _ _ Hs).
Qed.

Lemma scan_inittab_absent p text names w :
  fs w !! p = Some (File text) ->
  Str.contains INITTAB_MARKER text = false ->
  scan_inittab p names w = (Raise IndexError, w).
Proof.
  intros Hp Habsent. unfold scan_inittab, bind at 1, exists_.
  rewrite bool_decide_eq_true_2 by (by rewrite Hp). simpl.
  unfold bind, read_text. rewrite Hp.
  by rewrite (split_absent _ _ Habsent).
Qed.

End NativeScan.

(** ** Failure *)

Lemma fails_bind_l {A B} (m : M A) (f : A -> M B) w :
  fails m w -> fails (bind m f) w.
Proof.
  unfold fails, bind. destruct (m w) as [[a|e] w1]; simpl; [|eauto].
  by intros [? ?].
Qed.

Lemma fails_bind {A B} (m : M A) (f : A -> M B) w :
  (forall a w1, m w = (Ok a, w1) -> fails (f a) w1) -> fails (bind m f) w.
Proof.
  unfold fails, bind. destruct (m w) as [[a|e] w1]; simpl; eauto.
Qed.

Lemma keeps_run {X A} (obs : World -> X) (m : M A) w r w1 :
  keeps obs m -> m w = (r, w1) -> obs w1 = obs w.
Proof. intros Hkeeps Hrun. specialize (Hkeeps w). by rewrite Hrun in Hkeeps. Qed.

Lemma fails_run {A} (m : M A) w :
  fails m w -> exists e, m w = (Raise e, (m w).2).
Proof. intros [e He]. exists e. destruct (m w). simpl in *. by subst. Qed.

Section InitTable.

Context (env : Env).

(** A [config.c] without the marker makes the collection of names fail. *)
Lemma collect_fails_without_marker version base setup w p text :
  p = Path.child (Path.child base "PC") "config.c"
  \/ p = Path.child (Path.child (Path.child base "PC") "os2vacpp") "config.c" ->
  fs w !! p = Some (File text) ->
  Str.contains INITTAB_MARKER text = false ->
  fails (collect env version base setup) w.
Proof.
  intros Hp Hfile Habsent. unfold collect.
  apply fails_bind. intros module w1 Hrun1.
  apply (keeps_run fs) in Hrun1; [|apply try_parse_keeps].
  apply fails_bind. intros libs w2 Hrun2.
  apply (keeps_run fs) in Hrun2; [|apply glob_all_keeps].
  apply fails_bind. intros names1 w3 Hrun3.
  apply (keeps_run fs) in Hrun3;
    [|apply keeps_for_each; intros; apply scan_lib_entry_keeps].
  apply fails_bind. intros names2 w4 Hrun4.
  apply (keeps_run fs) in Hrun4;
    [|apply keeps_for_each; intros; apply scan_native_dir_keeps_fs].
  assert (fs w4 !! p = Some (File text)) as Hfile4 by congruence.
  apply fails_bind_l. cbn [for_each].
  destruct Hp as [<- | <-].
  - apply fails_bind_l. exists IndexError.
    by rewrite (scan_inittab_absent _ text _ _ Hfile4 Habsent).
  - apply fails_bind. intros names3 w5 Hrun5.
    apply (keeps_run fs) in Hrun5; [|apply scan_inittab_keeps].
    apply fails_bind_l. exists IndexError.
    rewrite (scan_inittab_absent _ text); [done| congruence |done].
Qed.

End InitTable.

(** C9.  The scan of a platform [config.c] presupposes the marker of the
    table: for a file that is there and whose text does not contain
    [_PyImport_Inittab[] = {], the split has one piece only, indexing it at
    1 raises [IndexError], and the scan yields no list of names.  The
    processing of the release is aborted: with the tree in the cache,
    [regen] raises and writes no table. *)
Theorem scan_inittab_needs_marker env version url p text names w :
  fs w !! p = Some (File text) ->
  Str.contains INITTAB_MARKER text = false ->
  Str.split text INITTAB_MARKER = [text]
  /\ scan_inittab p names w = (Raise IndexError, w)
  /\ (assoc version RELEASES = Some url ->
      is_Some (fs w !! base_path_of url) ->
      p = Path.child (Path.child (base_path_of url) "PC") "config.c"
      \/ p = Path.child
               (Path.child (Path.child (base_path_of url) "PC") "os2vacpp")
               "config.c" ->
      exists e w', regen env version w = (Raise e, w') /\ fs w' = fs w).
Proof.
  intros Hfile Habsent.
  split; [by apply split_absent|].
  split; [by apply (scan_inittab_absent p text)|].
  intros Hurl Hthere Hp.
  unfold regen. rewrite Hurl.
  rewrite (bind_Ok_l _ _ w url w) by done.
  rewrite (bind_Ok_l _ _ _ _ _ (fetch_cached env version url w Hthere)).
  cbn [fst snd].
  set (setup := if Str.startswith version "2" then _ else _).
  destruct (fails_run _ _
    (collect_fails_without_marker env version (base_path_of url) setup
       w p text Hp Hfile Habsent)) as [e Hcollect].
  exists e, (collect env version (base_path_of url) setup w).2.
  split; [by apply bind_Raise_l|].
  apply collect_keeps_fs.
Qed.

(** Release 3.8 in the cache with a [PC/config.c] that has an entry but
    not the marker. *)
Lemma scan_inittab_needs_marker_witness :
  scan_inittab Demo.config_c [] Demo.world_no_marker
    = (Raise IndexError, Demo.world_no_marker)
  /\ exists e w',
       regen Demo.env "3.8" Demo.world_no_marker = (Raise e, w')
       /\ fs w' = fs Demo.world_no_marker.
Proof.
  pose proof (scan_inittab_needs_marker Demo.env "3.8"
    "https://www.python.org/ftp/python/3.8.8/Python-3.8.8.tgz"
    Demo.config_c _ [] Demo.world_no_marker eq_refl eq_refl)
    as (_ & Hscan & Hregen).
  split; [exact Hscan|].
  apply Hregen; [reflexivity| |left; reflexivity].
  vm_compute. eexists. reflexivity.
Defined.

(** C10.  A C file adds at most one name.  When the module-definition
    pattern matches somewhere in the file, the file is handled from the
    capture of that pattern alone, the legacy pattern is not used; the
    legacy pattern is used only when the module-definition pattern matches
    nowhere.  The match used is the one at the leftmost position where the
    pattern matches; whatever else matches in the file plays no part. *)
Theorem scan_c_file_one_name p data names w :
  fs w !! p = Some (File data) ->
  (forall names' w',
     scan_c_file p names w = (Ok names', w') ->
     names' = names \/ exists name, names' = names ++ [name])
  /\ (forall m,
        Re.search MODULE_DEF_RE data = Some m ->
        scan_c_file p names w = scan_match p (Re.group1 m) names w)
  /\ (Re.search MODULE_DEF_RE data = None ->
      scan_c_file p names w =
      match Re.search PY2_INITMODULE_RE data with
      | Some m => scan_match p (Re.group1 m) names w
      | None => (Ok names, w)
      end)
  /\ (forall r m,
        Re.search r data = Some m ->
        Re.gmatch_at r (Re.drop (Re.m_start m) data)
          = Some (Re.m_len m, Re.group1 m)
        /\ forall j, j < Re.m_start m ->
             Re.gmatch_at r (Re.drop j data) = None).
Proof.
  intros Hfile. rewrite (scan_c_file_read _ _ _ _ Hfile). repeat split.
  - intros names' w'. destruct (or_else _ _) as [m|].
    + apply scan_match_one_name.
    + intros [= <- <-]. by left.
  - intros m Hm. by rewrite Hm.
  - intros Hnone. by rewrite Hnone.
  - apply search_from_leftmost in H as (j & Hstart & Hmatch & _).
    simpl in Hstart. by subst j.
  - apply search_from_leftmost in H as (j' & Hstart & _ & Hbefore).
    simpl in Hstart. subst j'. intros j Hj. by apply Hbefore.
Qed.

(** A file with two module definitions and a legacy call: only the first
    definition is recorded. *)
Lemma scan_c_file_one_name_witness :
  Re.search MODULE_DEF_RE Demo.two_defs_text
    = Some {| Re.m_start := 0; Re.m_len := 28;
              Re.group1 := Demo.q "first" |}
  /\ scan_c_file Demo.m_name_file [] Demo.world_two_defs
     = scan_match Demo.m_name_file (Demo.q "first") [] Demo.world_two_defs
  /\ scan_match Demo.m_name_file (Demo.q "first") [] Demo.world_two_defs
     = (Ok ["first"], Demo.world_two_defs).
Proof.
  pose proof (scan_c_file_one_name Demo.m_name_file Demo.two_defs_text []
                Demo.world_two_defs eq_refl) as (_ & Hfirst & _).
  assert (Re.search MODULE_DEF_RE Demo.two_defs_text
          = Some {| Re.m_start := 0; Re.m_len := 28;
                    Re.group1 := Demo.q "first" |}) as Hsearch
    by (vm_compute; reflexivity).
  split; [exact Hsearch|].
  split; [exact (Hfirst _ Hsearch)|].
  rewrite (scan_match_resolved _ _ (Demo.q "first"))
    by (vm_compute; reflexivity).
  reflexivity.
Defined.

(** C8, as amended.  For a C file with a match whose text [s] is there
    (lines 163-165 did not raise) and is not a quoted literal: a file named
    in the override table is entered under its stem, [socketmodule.c] and
    [posixmodule.c] under their name up to [module], and for any other
    file a diagnostic is printed and the list of names is left as it is;
    in each case the scan of the file returns.  Lines 163-165 raise only
    [IndexError], and only for a text that starts with [.m_name] and holds
    no equals sign. *)
Theorem scan_c_file_unquoted p data m s names w :
  fs w !! p = Some (File data) ->
  or_else (Re.search MODULE_DEF_RE data) (Re.search PY2_INITMODULE_RE data)
    = Some m ->
  matched_text (Re.group1 m) = Ok s ->
  quoted s = false ->
  scan_c_file p names w =
    (if bool_decide (Path.name p
                       ∈ ["_warnings.c"; "_sre.c"; "pyexpat.c"; "_bsddb.c"])
     then (Ok (names ++ [Path.stem (Path.name p)]), w)
     else if bool_decide (Path.name p ∈ ["socketmodule.c"; "posixmodule.c"])
     then (Ok (names ++ [List.hd "" (Str.split (Path.name p) "module")]), w)
     else (Ok names,
           {| fs := fs w; processes := processes w;
              console := console w
                ++ ["Unknown module for " +:+ s +:+ " in " +:+ Path.to_str p
                    +:+ ", skipped"] |}))
  /\ Path.stem <$> ["_warnings.c"; "_sre.c"; "pyexpat.c"; "_bsddb.c"]
     = ["_warnings"; "_sre"; "pyexpat"; "_bsddb"]
  /\ (fun fname => List.hd "" (Str.split fname "module"))
       <$> ["socketmodule.c"; "posixmodule.c"]
     = ["socket"; "posix"]
  /\ (forall g e,
        matched_text g = Raise e ->
        e = IndexError
        /\ Str.startswith
             (Str.strip (Re.sub_empty MULTILINE_COMMENT_RE g)) ".m_name" = true
        /\ Str.split (Str.strip (Re.sub_empty MULTILINE_COMMENT_RE g)) "="
             !! 1%nat = None).
Proof.
  intros Hfile Hmatch Hs Hquoted.
  rewrite (scan_c_file_read _ _ _ _ Hfile), Hmatch.
  rewrite (scan_match_resolved _ _ _ _ _ Hs).
  unfold resolve. fold (quoted s). rewrite Hquoted.
  split; [by repeat case_bool_decide|].
  split; [reflexivity|]. split; [reflexivity|].
  intros g e. unfold matched_text.
  destruct (Str.startswith _ ".m_name"); [|done].
  by destruct (Str.split _ "=" !! 1%nat); intros [= <-].
Qed.

(** In the tree of 3.8 of the concrete world, [_sre.c] goes through the
    override table and [bar.c] gets the diagnostic. *)
Lemma scan_c_file_unquoted_witness :
  scan_c_file (Demo.py38 ++ ["Modules"; "_sre.c"]) [] Demo.world_38
    = (Ok ["_sre"], Demo.world_38)
  /\ scan_c_file (Demo.py38 ++ ["Modules"; "bar.c"]) [] Demo.world_38
     = (Ok [],
        {| fs := fs Demo.world_38; processes := [];
           console :=
             ["Unknown module for BAR in .cache/Python-3.8.8/Modules/bar.c, skipped"]
        |}).
Proof.
  split.
  - refine (proj1 (scan_c_file_unquoted (Demo.py38 ++ ["Modules"; "_sre.c"])
      _ {| Re.m_start := 14; Re.m_len := 40; Re.group1 := "SRE_MODULE" |}
      "SRE_MODULE" [] Demo.world_38 eq_refl _ _ _)).
    all: vm_compute; reflexivity.
  - refine (proj1 (scan_c_file_unquoted (Demo.py38 ++ ["Modules"; "bar.c"])
      _ {| Re.m_start := 14; Re.m_len := 33; Re.group1 := "BAR" |}
      "BAR" [] Demo.world_38 eq_refl _ _ _)).
    all: vm_compute; reflexivity.
Defined.

(** C8 as stated fails: for a module definition whose second field is a
    bare [.m_name], line 165 raises [IndexError] and the scan is aborted
    instead of skipping the file. *)
Lemma scan_c_file_m_name_aborts :
  ~ fallback_as_specified Demo.m_name_file Demo.world_m_name.
Proof.
  intros Hclaim.
  assert ((scan_c_file Demo.m_name_file [] Demo.world_m_name).1
          = Raise IndexError) as Hraise by (vm_compute; reflexivity).
  destruct (Hclaim Demo.m_name_text
              {| Re.m_start := 0; Re.m_len := 29; Re.group1 := ".m_name " |}
              [])
    as [H|[H|[d H]]].
  - reflexivity.
  - vm_compute. reflexivity.
  - intros s. vm_compute. discriminate.
  - rewrite H in Hraise. discriminate.
  - rewrite H in Hraise. discriminate.
  - rewrite H in Hraise. discriminate.
Qed.

(** * Further properties *)

(** ** The parser, read backwards *)

(** A list either satisfies a decidable property throughout or has a
    first element that does not. *)
Lemma Forall_or_first {A} (P : A -> Prop) `{!forall x, Decision (P x)} l :
  Forall P l
  \/ exists before x after,
       l = before ++ x :: after /\ Forall P before /\ ~ P x.
Proof.
  induction l as [|a l IH]; [by left|].
  destruct (decide (P a)) as [Ha|Ha].
  - destruct IH as [IH|(before & x & after & -> & Hbefore & Hx)].
    + left. by constructor.
    + right. exists (a :: before), x, after. repeat split; [|done].
      by constructor.
  - right. exists [], a, l. repeat split; [constructor|done].
Qed.

(** X1.  What [try_parse] returns is always accounted for by the grammar
    versions in the reverse of their listed order.  A module is returned
    only when some version parses the text to it and every version tried
    before it rejected the text with a syntax error.  An exception of
    [parse_module] that is no syntax error is raised at once, whatever the
    versions not yet tried would do.  With no known version at all the
    exception is [Exception("unknown parse failure")]. *)
Theorem try_parse_outcome env data :
  (forall module,
     try_parse_data env data = Ok module ->
     exists newer v older,
       reverse (KNOWN_PYTHON_VERSION_STRINGS env) = newer ++ v :: older
       /\ Forall (syntax_rejected env data) newer
       /\ parse_module env data v = Parsed module)
  /\ (forall newer v older e,
        reverse (KNOWN_PYTHON_VERSION_STRINGS env) = newer ++ v :: older ->
        Forall (syntax_rejected env data) newer ->
        parse_module env data v = Rejected e ->
        (forall msg, e <> ParserSyntaxError msg) ->
        try_parse_data env data = Raise e)
  /\ (KNOWN_PYTHON_VERSION_STRINGS env = [] ->
      try_parse_data env data = Raise (Exception "unknown parse failure")).
Proof.
  unfold try_parse_data. repeat split.
  - intros module Hok.
    destruct (Forall_or_first (syntax_rejected env data)
                (reverse (KNOWN_PYTHON_VERSION_STRINGS env)))
      as [Hall|(newer & v & older & Hsplit & Hnewer & Hv)].
    + rewrite <- (app_nil_r (reverse _)) in Hok.
      rewrite try_parse_loop_skip in Hok by done. simpl in Hok.
      by destruct (head _ ≫= _).
    + exists newer, v, older. rewrite Hsplit in Hok |- *.
      rewrite try_parse_loop_skip in Hok by done. simpl in Hok.
      unfold syntax_rejected in Hv.
      destruct (parse_module env data v) as [m|[]]; simplify_eq/=; try done.
      by destruct Hv.
  - intros newer v older e -> Hnewer Hv He.
    rewrite try_parse_loop_skip by done. simpl. rewrite Hv.
    destruct e; try done. by destruct (He msg).
  - intros ->. reflexivity.
Qed.

(** Under the parser that breaks off at 3.7: 3.8 is passed over, the
    exception of 3.7 is raised although 3.6 would parse the text. *)
Lemma try_parse_outcome_witness :
  try_parse_data Cases.env_deep "x = 1" = Raise (ForeignError "RecursionError")
  /\ parse_module Cases.env_deep "x = 1" "3.6" = Parsed (Cst.Other []).
Proof.
  split; [|reflexivity].
  refine (proj1 (proj2 (try_parse_outcome Cases.env_deep "x = 1"))
            ["3.8"] "3.7" ["3.6"; "3.5"; "3.3"; "3.1"; "3.0"] _
            eq_refl _ eq_refl _).
  - repeat constructor. by eexists.
  - intros msg. discriminate.
Defined.

(** ** The visitor, read backwards *)

Section VisitorSound.

Context (env : Env).

Lemma extract_Call_Some node tok :
  extract_Call node = Some tok ->
  exists func kw star rest,
    node = Cst.Call func (Cst.Arg kw (Cst.SimpleString tok) star :: rest)
    /\ (func = Cst.Name "Extension" \/ func = Cst.Name "addMacExtension").
Proof.
  destruct node as [| |func args| | | | | | |]; try done.
  destruct args as [|arg rest]; [done|].
  destruct arg as [| | |kw value star| | | | | |]; try done.
  destruct value as [|tok'| | | | | | | |]; try done.
  simpl. destruct func as [v| | | | | | | | |]; try done. simpl.
  case_bool_decide as H1; [|case_bool_decide as H2; [|done]];
    intros [= <-]; subst v; eauto 10.
Qed.

Lemma extract_Assign_Some node elements :
  extract_Assign node = Some elements ->
  node = Cst.Assign [Cst.AssignTarget (Cst.Name "CARBON_EXTS")]
           (Cst.List elements).
Proof.
  destruct node as [| | | | | | |targets value| |]; try done.
  destruct targets as [|target targets]; [done|].
  destruct target as [| | | | | | | |target|]; try done.
  destruct target as [v| | | | | | | | |]; try done.
  destruct targets; [|done].
  destruct value as [| | | |elements'| | | | |]; try done.
  simpl. case_bool_decide; [|done]. intros [= <-]. by subst v.
Qed.

Lemma string_element_Some item x :
  string_element env item = Some x ->
  exists tok,
    (item = Cst.Element (Cst.SimpleString tok)
     \/ item = Cst.StarredElement (Cst.SimpleString tok))
    /\ x = evaluated_value env tok.
Proof.
  destruct item as [| | | | |[]|[]| | |]; try done;
    intros [= <-]; eauto.
Qed.

(** What the visit of one node appends was recorded for that node. *)
Lemma on_visit_sound node acc x :
  x ∈ on_visit env node acc -> x ∈ acc \/ records env node x.
Proof.
  destruct node; simpl; auto.
  - unfold visit_Call.
    destruct (extract_Call _) as [tok|] eqn:Hcall; [|auto].
    rewrite elem_of_app, list_elem_of_singleton. intros [Hin| ->]; [auto|].
    apply extract_Call_Some in Hcall as (f & kw & star & rest & -> & Hf).
    right. left. eauto 10.
  - unfold visit_Assign.
    destruct (extract_Assign _) as [elements|] eqn:Hassign; [|auto].
    rewrite record_elements_omap, elem_of_app, list_elem_of_omap.
    intros [|(item & Hitem & Hx)]; [auto|].
    apply extract_Assign_Some in Hassign as ->.
    apply string_element_Some in Hx as (tok & [-> | ->] & ->);
      right; right; eauto 10.
Qed.

Lemma visit_all_sound cs x :
  Forall (fun c => forall acc,
            x ∈ visit env c acc ->
            x ∈ acc \/ exists node, Cst.occurs_in node c /\ records env node x)
    cs ->
  forall acc,
    x ∈ foldl (fun acc c => visit env c acc) acc cs ->
    x ∈ acc
    \/ exists c node,
         c ∈ cs /\ Cst.occurs_in node c /\ records env node x.
Proof.
  induction 1 as [|c cs Hc _ IH]; intros acc; simpl; [auto|].
  intros [Hin|(c' & node & ? & ? & ?)]%IH.
  - apply Hc in Hin as [|(node & ? & ?)]; [auto|].
    right. exists c, node. split; [constructor|done].
  - right. exists c', node. split; [by constructor|done].
Qed.

Lemma visit_sound root x :
  forall acc,
    x ∈ visit env root acc ->
    x ∈ acc \/ exists node, Cst.occurs_in node root /\ records env node x.
Proof.
  induction root as [root IH] using node_children_ind. intros acc.
  rewrite visit_children.
  intros [Hin|(c & node & Hc & Hoccurs & Hrec)]%(visit_all_sound _ _ IH).
  - apply on_visit_sound in Hin as [|Hrec]; [auto|].
    right. exists root. split; [constructor|done].
  - right. exists node. split; [|done]. by eapply Cst.occurs_below.
Qed.

End VisitorSound.

(** X2.  The visitor records nothing but the two shapes: every name in
    [extension_names] after the traversal is the evaluated first argument
    of a call of [Extension] or [addMacExtension] that occurs in the tree,
    or the evaluated string of an element (plain or starred) of a list
    assigned to the sole target [CARBON_EXTS] that occurs in the tree. *)
Theorem visit_records_only_matches env module x :
  x ∈ visit env module [] ->
  exists node, Cst.occurs_in node module /\ records env node x.
Proof.
  intros [Hin|H]%visit_sound; [|done]. by apply elem_of_nil in Hin.
Qed.

(** In the build script of the concrete world, [_Carbon] comes from the
    list assigned to [CARBON_EXTS]. *)
Lemma visit_records_only_matches_witness :
  exists node,
    Cst.occurs_in node Demo.setup_tree /\ records Demo.env node "_Carbon".
Proof.
  apply (visit_records_only_matches Demo.env Demo.setup_tree "_Carbon").
  vm_compute. do 2 apply list_elem_of_further. apply list_elem_of_here.
Defined.

(** ** No scan removes a name *)

Lemma for_each_prefix {A} (xs : list A)
    (body : A -> list string -> M (list string)) :
  (forall x acc w acc' w',
     body x acc w = (Ok acc', w') -> acc `prefix_of` acc') ->
  forall acc w acc' w',
    for_each xs body acc w = (Ok acc', w') -> acc `prefix_of` acc'.
Proof.
  intros Hbody. induction xs as [|x xs IH]; intros acc w acc' w' H; simpl in H.
  - unfold ret in H. by simplify_eq.
  - inv_bind H. etrans; [by eapply Hbody|by eapply IH].
Qed.

Lemma record_inittab_prefix ms names :
  names `prefix_of` foldl record_inittab names ms.
Proof.
  revert names. induction ms as [|m ms IH]; intros names; simpl; [done|].
  etrans; [|apply IH]. unfold record_inittab.
  case_bool_decide; [done|by eexists].
Qed.

Lemma try_parse_world env p w module w' :
  try_parse env p w = (Ok module, w') -> w' = w.
Proof.
  unfold try_parse. intros H. inv_bind H.
  unfold read_text in Hrun. unfold lift in H.
  destruct (fs w !! p) as [[]|]; by simplify_eq.
Qed.

Section Growth.

Context (env : Env).

Lemma scan_plat_entry_prefix entry names w names' w' :
  scan_plat_entry entry names w = (Ok names', w') -> names `prefix_of` names'.
Proof.
  unfold scan_plat_entry. intros H. inv_bind H. unfold ret in H.
  repeat case_match; simplify_eq; try done; by eexists.
Qed.

Lemma scan_lib_entry_prefix p names w names' w' :
  scan_lib_entry p names w = (Ok names', w') -> names `prefix_of` names'.
Proof.
  unfold scan_lib_entry. destruct (Str.startswith_any _ _).
  - intros H. inv_bind H.
    eapply for_each_prefix; [|done]. apply scan_plat_entry_prefix.
  - unfold ret. case_bool_decide; intros [= <- <-]; [done|by eexists].
Qed.

Lemma scan_c_file_prefix p names w names' w' :
  scan_c_file p names w = (Ok names', w') -> names `prefix_of` names'.
Proof.
  unfold scan_c_file. intros H. inv_bind H.
  destruct (or_else _ _) as [m|].
  - apply scan_match_one_name in H as [->|[name ->]]; [done|by eexists].
  - unfold ret in H. by simplify_eq.
Qed.

Lemma scan_native_dir_prefix base subdir names w names' w' :
  scan_native_dir base subdir names w = (Ok names', w') ->
  names `prefix_of` names'.
Proof.
  unfold scan_native_dir. intros H. inv_bind H.
  eapply for_each_prefix; [|done]. apply scan_c_file_prefix.
Qed.

Lemma scan_inittab_prefix p names w names' w' :
  scan_inittab p names w = (Ok names', w') -> names `prefix_of` names'.
Proof.
  unfold scan_inittab. intros H. inv_bind H.
  destruct (negb a); [unfold ret in H; by simplify_eq|].
  inv_bind H. destruct (_ !! 1%nat); [|done].
  unfold ret in H. simplify_eq. apply record_inittab_prefix.
Qed.

Lemma add_aliases_prefix t names : names `prefix_of` add_aliases t names.
Proof.
  unfold add_aliases.
  destruct (tuple_ge t [3; 3]%Z), (tuple_ge t [3; 5]%Z);
    try done; try by eexists.
  rewrite <- app_assoc. by eexists.
Qed.

(** The names of a release start with the names of the visitor. *)
Lemma collect_prefix version base setup w l w' :
  collect env version base setup w = (Ok l, w') ->
  exists module,
    try_parse env setup w = (Ok module, w)
    /\ visit env module [] `prefix_of` l.
Proof.
  unfold collect. intros H.
  inv_bind H. pose proof (try_parse_world _ _ _ _ _ Hrun) as ->.
  exists a. split; [done|].
  inv_bind H. inv_bind H. inv_bind H. inv_bind H. inv_bind H.
  unfold ret in H. simplify_eq.
  etrans; [by eapply (for_each_prefix _ _ scan_lib_entry_prefix)|].
  etrans; [by eapply (for_each_prefix _ _ (scan_native_dir_prefix base))|].
  etrans; [by eapply (for_each_prefix _ _ scan_inittab_prefix)|].
  apply add_aliases_prefix.
Qed.

End Growth.

(** X3.  No scan of [regen] removes a name: in a successful run the build
    script was parsed to a module, and every name the visitor recorded for
    that module is in the set that is returned and in the table that is
    written. *)
Theorem regen_keeps_extension_names env version w names w' :
  regen env version w = (Ok names, w') ->
  exists url paths w1 module,
    assoc version RELEASES = Some url
    /\ fetch env version url w = (Ok paths, w1)
    /\ try_parse env paths.2 w1 = (Ok module, w1)
    /\ forall x, x ∈ visit env module [] -> x ∈ names /\ x ∈ sorted names.
Proof.
  intros Hregen.
  apply regen_Ok_inv in Hregen
    as (url & paths & w1 & l & w2 & Hurl & Hfetch & Hcollect & -> & _).
  apply collect_prefix in Hcollect as (module & Hparse & [more ->]).
  exists url, paths, w1, module. repeat split; try done.
  - apply elem_of_list_to_set, elem_of_app. by left.
  - apply elem_of_sorted, elem_of_list_to_set, elem_of_app. by left.
Qed.

(** Release 3.8 of the concrete world: [_socket], [_Qt] and [_Carbon] of
    the build script are in the table. *)
Lemma regen_keeps_extension_names_witness :
  exists names w',
    regen Demo.env "3.8" Demo.world_38 = (Ok names, w')
    /\ visit Demo.env Demo.setup_tree [] = ["_socket"; "_Qt"; "_Carbon"]
    /\ "_socket" ∈ names.
Proof.
  destruct (run_check (regen Demo.env "3.8") Demo.world_38 (fun _ => true))
    as (names & Hrun & _); [vm_compute; reflexivity|].
  destruct (regen_keeps_extension_names Demo.env "3.8" Demo.world_38 names _
              Hrun) as (url & paths & w1 & module & Hurl & Hfetch & Hparse & Hin).
  exists names, (regen Demo.env "3.8" Demo.world_38).2.
  split; [exact Hrun|]. split; [reflexivity|].
  injection Hurl as <-.
  rewrite (fetch_cached Demo.env "3.8" _ Demo.world_38) in Hfetch
    by (vm_compute; eexists; reflexivity).
  injection Hfetch as <- <-.
  assert (module = Demo.setup_tree) as ->.
  { assert ((try_parse Demo.env
               (Path.child (base_path_of
                  "https://www.python.org/ftp/python/3.8.8/Python-3.8.8.tgz")
                  "setup.py") Demo.world_38).1 = Ok Demo.setup_tree) as Hp
      by (vm_compute; reflexivity).
    simpl in Hparse. rewrite Hparse in Hp. by injection Hp. }
  apply Hin. apply list_elem_of_here.
Defined.

(** ** Fetching a release that is not in the cache *)

Lemma check_call_run env pr_argv pr_cwd w :
  check_call env pr_argv pr_cwd w =
  (if (run_process env (Process pr_argv pr_cwd) (fs w)).2
   then Ok () else Raise (CalledProcessError pr_argv),
   {| fs := (run_process env (Process pr_argv pr_cwd) (fs w)).1;
      processes := processes w ++ [Process pr_argv pr_cwd];
      console := console w |}).
Proof.
  unfold check_call.
  by destruct (run_process env _ (fs w)) as [files []].
Qed.

(** X4.  For a release whose tree is not in the cache, [fetch] starts the
    download, then the extraction, then (for a version starting with 2
    only) the syntax migration, in this order and each at most once: the
    processes it has started when it returns or raises are an initial part
    of that list, so nothing is extracted after a failed download and no
    release of major version 3 is ever migrated.  When it returns, all of
    them have run, and the build script to parse is the migrated one for
    major version 2 and the original one otherwise. *)
Theorem fetch_runs_processes_in_order env version url w :
  fs w !! base_path_of url = None ->
  (exists ran,
     ran `prefix_of` fetch_processes env version url
     /\ processes (fetch env version url w).2 = processes w ++ ran)
  /\ (forall paths w',
        fetch env version url w = (Ok paths, w') ->
        processes w' = processes w ++ fetch_processes env version url
        /\ paths =
           (base_path_of url,
            if Str.startswith version "2"
            then Path.child (Path.child (base_path_of url) "fixed") "setup.py"
            else Path.child (base_path_of url) "setup.py")).
Proof.
  intros Habsent.
  assert (exists ran,
    ran `prefix_of` fetch_processes env version url
    /\ processes (fetch env version url w).2 = processes w ++ ran
    /\ forall paths,
         (fetch env version url w).1 = Ok paths ->
         ran = fetch_processes env version url
         /\ paths =
            (base_path_of url,
             if Str.startswith version "2"
             then Path.child (Path.child (base_path_of url) "fixed") "setup.py"
             else Path.child (base_path_of url) "setup.py")) as Hspec.
  { unfold fetch, fetch_processes, wget_process, tar_process, lib2to3_process.
    cbv zeta. unfold bind, exists_. rewrite Habsent.
    rewrite bool_decide_eq_false_2 by (by intros [? ?]). cbn [negb].
    destruct (mkdir_exist_ok [".cache"] w) as [[[]|e] w1] eqn:Hmk;
      apply (keeps_run processes) in Hmk; try apply mkdir_keeps_processes.
    2:{ exists []. rewrite app_nil_r. simpl.
        split; [apply prefix_nil|]. by split. }
    rewrite check_call_run.
    destruct (run_process env _ (fs w1)) as [files1 [|]]; cbn [fst snd].
    2:{ simpl. rewrite Hmk. eexists. split; [|by split]. by eexists. }
    rewrite check_call_run. cbn [fs processes console].
    destruct (run_process env _ files1) as [files2 [|]]; cbn [fst snd].
    2:{ simpl. rewrite Hmk, <- app_assoc.
        eexists. split; [|by split]. by eexists. }
    destruct (Str.startswith version "2").
    2:{ unfold ret. simpl. rewrite Hmk, <- app_assoc.
        eexists. split; [done|]. split; [done|]. by intros ? [= <-]. }
    match goal with
    | |- context [mkdir_exist_ok ?p ?w0] =>
        destruct (mkdir_exist_ok p w0) as [[[]|e] w3] eqn:Hmk2;
        apply (keeps_run processes) in Hmk2; try apply mkdir_keeps_processes
    end.
    2:{ simpl in *. rewrite Hmk2, Hmk, <- app_assoc.
        eexists. split; [|by split]. by eexists. }
    rewrite check_call_run.
    destruct (run_process env _ (fs w3)) as [files3 [|]]; cbn [fst snd].
    2:{ simpl in *. rewrite Hmk2, Hmk, <- !app_assoc.
        eexists. split; [done|]. by split. }
    unfold read_text. cbn [fs processes console].
    destruct (files3 !! _) as [[text|]|];
      unfold write_text, ret; simpl in *;
      rewrite Hmk2, Hmk, <- !app_assoc;
      (eexists; split; [done|]; split; [done|]); [|done..].
    by intros ? [= <-]. }
  destruct Hspec as (ran & Hprefix & Hran & Hok). split.
  - by exists ran.
  - intros paths w' Hfetch. rewrite Hfetch in Hran, Hok. simpl in *.
    destruct (Hok paths eq_refl) as [<- ->]. done.
Qed.

(** Release 2.7 from an empty cache with tools that work: three processes,
    and the migrated script is the one to parse.  Release 3.0, whose
    extraction fails: the download and the extraction only. *)
Lemma fetch_runs_processes_in_order_witness :
  processes
    (fetch Cases.env_tools "2.7"
       "https://www.python.org/ftp/python/2.7.18/Python-2.7.18.tgz"
       Cases.empty_world).2
  = fetch_processes Cases.env_tools "2.7"
      "https://www.python.org/ftp/python/2.7.18/Python-2.7.18.tgz"
  /\ exists ran,
       ran `prefix_of` fetch_processes Cases.env_tools "3.0"
                         "https://www.python.org/ftp/python/3.0.1/Python-3.0.1.tgz"
       /\ processes
            (fetch Cases.env_tools "3.0"
               "https://www.python.org/ftp/python/3.0.1/Python-3.0.1.tgz"
               Cases.empty_world).2
          = ran.
Proof.
  split.
  - destruct (run_check (fetch Cases.env_tools "2.7"
        "https://www.python.org/ftp/python/2.7.18/Python-2.7.18.tgz")
        Cases.empty_world (fun _ => true)) as (paths & Hrun & _);
      [vm_compute; reflexivity|].
    exact (proj1 (proj2 (fetch_runs_processes_in_order Cases.env_tools "2.7"
      "https://www.python.org/ftp/python/2.7.18/Python-2.7.18.tgz"
      Cases.empty_world eq_refl) _ _ Hrun)).
  - exact (proj1 (fetch_runs_processes_in_order Cases.env_tools "3.0"
      "https://www.python.org/ftp/python/3.0.1/Python-3.0.1.tgz"
      Cases.empty_world eq_refl)).
Defined.

(** ** The lines that are omitted *)

Lemma string_app_nil_r (s : string) : s +:+ "" = s.
Proof.
  induction s as [|c s IH]; [done|].
  change (String c (s +:+ "") = String c s). by rewrite IH.
Qed.

Lemma string_app_assoc (a b c : string) : (a +:+ b) +:+ c = a +:+ (b +:+ c).
Proof.
  induction a as [|x a IH]; [done|].
  change (String x ((a +:+ b) +:+ c) = String x (a +:+ (b +:+ c))).
  by rewrite IH.
Qed.

Lemma rev_app_app (a b s : string) :
  String.rev_app a b +:+ s = String.rev_app a (b +:+ s).
Proof. revert b. induction a as [|c a IH]; intros b; [done|]. apply IH. Qed.

Lemma join_empty_cons (x : string) (l : list string) :
  Str.join "" (x :: l) = x +:+ Str.join "" l.
Proof. destruct l; [|done]. cbn [Str.join]. by rewrite string_app_nil_r. Qed.

(** Cutting a text into its lines with their ends and joining them gives
    the text back. *)
Lemma splitlines_go_join s cur :
  Str.join "" (Str.splitlines_go s cur) = String.rev_app cur s.
Proof.
  revert cur. induction s as [|c s IH]; intros cur.
  - by destruct cur.
  - cbn [Str.splitlines_go]. destruct (Str.is_linebreak c); [|apply IH].
    destruct s as [|d s]; [done|].
    destruct (_ && _); [apply IH|].
    rewrite join_empty_cons, IH. unfold String.rev. by rewrite rev_app_app.
Qed.

Lemma splitlines_join s : Str.join "" (Str.splitlines_keepends s) = s.
Proof. apply splitlines_go_join. Qed.

Lemma join_empty_app (l1 l2 : list string) :
  Str.join "" (l1 ++ l2) = Str.join "" l1 +:+ Str.join "" l2.
Proof.
  induction l1 as [|x l1 IH]; [done|].
  rewrite <- app_comm_cons, !join_empty_cons, IH.
  by rewrite string_app_assoc.
Qed.

Lemma omit_lines_length text :
  String.length (omit_lines text) <= String.length text.
Proof.
  unfold omit_lines. rewrite <- (splitlines_join text) at 2.
  induction (Str.splitlines_keepends text) as [|line lines IH]; [done|].
  rewrite filter_cons, (join_empty_cons line).
  assert (forall a b : string,
            String.length (a +:+ b) = String.length a + String.length b) as Hlen.
  { intros a b. induction a as [|c a IHa]; [done|].
    change (S (String.length (a +:+ b))
            = S (String.length a + String.length b)).
    by rewrite IHa. }
  rewrite Hlen. case_decide; [|lia].
  rewrite join_empty_cons, Hlen. lia.
Qed.

(** X5.  After the syntax migration of a release of major version 2 that
    was not in the cache, the migrated script is rewritten as its own lines
    without those whose stripped text is on the denylist, and nothing else
    of what the migration left is touched.  A script none of whose lines
    is on the denylist is written back as it is; no rewriting makes the
    script longer. *)
Theorem fetch_omits_denylisted_lines env version url w paths w' :
  Str.startswith version "2" = true ->
  fs w !! base_path_of url = None ->
  fetch env version url w = (Ok paths, w') ->
  (exists files text,
     (run_process env (lib2to3_process env url) files).1 !! paths.2
       = Some (File text)
     /\ fs w' = <[paths.2 := File (omit_lines text)]>
                  (run_process env (lib2to3_process env url) files).1)
  /\ (forall text,
        Forall (fun line => Str.strip line ∉ PY2_LINES_TO_OMIT)
          (Str.splitlines_keepends text) ->
        omit_lines text = text)
  /\ (forall text, String.length (omit_lines text) <= String.length text).
Proof.
  intros H2 Habsent Hfetch. split; [|split].
  - unfold fetch in Hfetch. cbv zeta in Hfetch. rewrite H2 in Hfetch.
    inv_bind Hfetch. unfold exists_ in Hrun. simplify_eq.
    rewrite Habsent in Hfetch.
    rewrite bool_decide_eq_false_2 in Hfetch by (by intros [? ?]).
    cbn [negb] in Hfetch.
    do 5 inv_bind Hfetch.
    rewrite check_call_run in Hrun3.
    inv_bind Hfetch. inv_bind Hfetch.
    unfold ret in Hfetch. unfold write_text in Hrun5.
    unfold read_text in Hrun4. simplify_eq/=.
    exists (fs w3).
    destruct (_ !! _) as [[text|]|] eqn:Hread in Hrun4; simplify_eq/=.
    eexists. split; [exact Hread|reflexivity].
  - intros text Hlines. unfold omit_lines.
    rewrite <- (splitlines_join text) at 2. f_equal.
    induction Hlines as [|line lines Hline _ IH]; [done|].
    rewrite filter_cons. case_decide; [|done]. by rewrite IH.
  - apply omit_lines_length.
Qed.

(** Release 2.7 from an empty cache: the migrated script of the concrete
    tools loses its second line, which is on the denylist once stripped. *)
Lemma fetch_omits_denylisted_lines_witness :
  exists paths w',
    fetch Cases.env_tools "2.7"
      "https://www.python.org/ftp/python/2.7.18/Python-2.7.18.tgz"
      Cases.empty_world = (Ok paths, w')
    /\ fs w' !! paths.2
       = Some (File ("import os" +:+ newline +:+ "x = 1" +:+ newline))
    /\ omit_lines Cases.migrated_text
       = "import os" +:+ newline +:+ "x = 1" +:+ newline.
Proof.
  destruct (run_check (fetch Cases.env_tools "2.7"
      "https://www.python.org/ftp/python/2.7.18/Python-2.7.18.tgz")
      Cases.empty_world
      (fun paths => bool_decide (paths.2 = Cases.py27 ++ ["fixed"; "setup.py"])))
    as (paths & Hrun & Hpaths); [vm_compute; reflexivity|].
  apply bool_decide_eq_true in Hpaths.
  destruct (fetch_omits_denylisted_lines Cases.env_tools "2.7"
              "https://www.python.org/ftp/python/2.7.18/Python-2.7.18.tgz"
              Cases.empty_world paths _ eq_refl eq_refl Hrun)
    as ((files & text & Hread & Hfs) & _).
  eexists _, _. split; [exact Hrun|]. split; [|vm_compute; reflexivity].
  rewrite Hfs, lookup_insert_eq. do 2 f_equal.
  rewrite Hpaths in Hread.
  assert (forall files0,
    (run_process Cases.env_tools
       (lib2to3_process Cases.env_tools
          "https://www.python.org/ftp/python/2.7.18/Python-2.7.18.tgz")
       files0).1 !! (Cases.py27 ++ ["fixed"; "setup.py"])
    = Some (File Cases.migrated_text)) as Htools.
  { intros files0. apply lookup_insert_eq. }
  rewrite Htools in Hread. injection Hread as <-.
  vm_compute. reflexivity.
Defined.

(** ** All releases, when one fails and when all are cached *)

Lemma run_raise {A} (m : M A) w e :
  (m w).1 = Raise e -> m w = (Raise e, (m w).2).
Proof. destruct (m w) as [r w']. simpl. by intros ->. Qed.

Section Loop.

Context (env : Env).



End Loop.







Section Cached.

Context (env : Env).



End Cached.



(** ** The text of a table determines its names *)

Lemma string_app_inv_tail (a b c : string) : a +:+ c = b +:+ c -> a = b.
Proof.
  intros H.
  assert (forall s t : string,
            String.length (s +:+ t) = String.length s + String.length t)
    as Hlen.
  { intros s t. induction s as [|x s IHs]; [done|].
    change (S (String.length (s +:+ t))
            = S (String.length s + String.length t)).
    by rewrite IHs. }
  assert (String.length a = String.length b) as Hab.
  { apply (f_equal String.length) in H. rewrite !Hlen in H. lia. }
  revert b H Hab. induction a as [|x a IH]; intros [|y b] H Hab; try done.
  change (String x (a +:+ c) = String y (b +:+ c)) in H.
  injection H as -> H. f_equal. apply IH; [done|]. by injection Hab.
Qed.

Lemma prefix_empty (s : string) : String.prefix "" s = true.
Proof. by destruct s. Qed.

(** Two texts without a line feed, each followed by a line feed, agree
    only when they and what follows agree. *)
Lemma line_feed_splits (x y rest1 rest2 : string) :
  Str.contains newline x = false ->
  Str.contains newline y = false ->
  x +:+ String "010" rest1 = y +:+ String "010" rest2 ->
  x = y /\ rest1 = rest2.
Proof.
  revert y. induction x as [|c x IH]; intros [|d y] Hx Hy H.
  - by injection H.
  - change (String "010" rest1 = String d (y +:+ String "010" rest2)) in H.
    injection H as <- _. cbn in Hy. by rewrite prefix_empty in Hy.
  - change (String c (x +:+ String "010" rest1) = String "010" rest2) in H.
    injection H as -> _. cbn in Hx. by rewrite prefix_empty in Hx.
  - change (String c (x +:+ String "010" rest1)
            = String d (y +:+ String "010" rest2)) in H.
    injection H as -> H.
    cbn [Str.contains] in Hx, Hy.
    apply orb_false_iff in Hx as [_ Hx]. apply orb_false_iff in Hy as [_ Hy].
    destruct (IH y Hx Hy H) as [-> ->]. done.
Qed.

Lemma contains_app_no_newline (x t : string) :
  Str.contains newline x = false ->
  Str.contains newline t = false ->
  Str.contains newline (x +:+ t) = false.
Proof.
  intros Hx Ht. induction x as [|c x IH]; [done|].
  change (Str.contains newline (String c (x +:+ t)) = false).
  cbn [Str.contains] in Hx |- *.
  apply orb_false_iff in Hx as [Hc Hx]. apply orb_false_iff. split.
  - unfold newline in *. cbn -[ascii_dec] in Hc |- *.
    destruct (ascii_dec "010" c); [|done]. by rewrite prefix_empty in Hc.
  - by apply IH.
Qed.

(** The lines of two lists of names without line feeds, followed by the
    end of the template, agree only for equal lists. *)
Lemma table_lines_inj (l1 l2 : list string) (tail : string) :
  tail = "    ]" +:+ newline +:+ ")" +:+ newline ->
  Forall (fun x => Str.contains newline x = false) l1 ->
  Forall (fun x => Str.contains newline x = false) l2 ->
  Str.join "" (table_line <$> l1) +:+ tail
    = Str.join "" (table_line <$> l2) +:+ tail ->
  l1 = l2.
Proof.
  intros Htail H1. revert l2.
  induction H1 as [|x l1 Hx _ IH]; intros l2 H2 H.
  - destruct H2 as [|y l2 Hy _]; [done|].
    rewrite fmap_cons, join_empty_cons, string_app_assoc in H.
    subst tail. by vm_compute in H.
  - destruct H2 as [|y l2 Hy H2].
    + rewrite fmap_cons, join_empty_cons, string_app_assoc in H.
      subst tail. by vm_compute in H.
    + rewrite !fmap_cons, !join_empty_cons, !string_app_assoc in H.
      unfold table_line in H. rewrite !string_app_assoc in H.
      apply (inj (String.app "        ")) in H.
      apply (inj (String.app dquote)) in H.
      assert (forall z rest : string,
                z +:+ dquote +:+ "," +:+ newline +:+ rest
                = (z +:+ dquote +:+ ",") +:+ String "010" rest) as Hshape.
      { intros z rest. by rewrite !string_app_assoc. }
      rewrite !Hshape in H.
      apply line_feed_splits in H as [Hxy Hrest];
        [|by apply contains_app_no_newline..].
      apply string_app_inv_tail in Hxy as ->.
      f_equal. by apply IH.
Qed.

(** X8.  The text of a table determines the set it was written for: two
    sets none of whose names holds a line feed get the same text only
    when they are the same set.  The condition is needed, names are
    written without any escaping: a single name that holds a quote, a
    comma and a line feed can give the text of two names. *)
Theorem table_text_determines_names (data1 data2 : gset string) :
  (forall x, x ∈ data1 ∪ data2 -> Str.contains newline x = false) ->
  table_text (sorted data1) = table_text (sorted data2) ->
  data1 = data2.
Proof.
  intros Hnames Htext.
  assert (sorted data1 = sorted data2) as Hsorted.
  { unfold table_text, GENERATED_TMPL_format in Htext.
    do 9 apply (inj (String.app _)) in Htext.
    eapply table_lines_inj; [reflexivity| | |exact Htext];
      apply Forall_forall; intros x Hx%elem_of_sorted;
      apply Hnames; set_solver. }
  apply set_eq. intros x. by rewrite <- !elem_of_sorted, Hsorted.
Qed.

(** Two sets of two names each differ in their text; a set of one name
    with a quote, a comma and a line feed in it has the text of the set
    of the two names [a] and [b]. *)
Lemma table_text_determines_names_witness :
  (table_text (sorted {["a"; "b"]}) = table_text (sorted {["b"; "a"]}) ->
   ({["a"; "b"]} : gset string) = {["b"; "a"]})
  /\ table_text
       (sorted {["a" +:+ dquote +:+ "," +:+ newline +:+ "        "
                 +:+ dquote +:+ "b"]})
     = table_text (sorted {["a"; "b"]}).
Proof.
  split.
  - apply table_text_determines_names.
    intros x Hx.
    assert (x = "a" \/ x = "b") as [-> | ->] by set_solver; reflexivity.
  - vm_compute. reflexivity.
Defined.

(** ** What the patterns capture *)

Section Matcher.

Context {R : Type}.

(** A quantified class consumes a number of characters of the class that
    is at least its lower bound, and goes on with the rest. *)
Lemma rep_inv p greedy s lo hi (k : string -> option R) x :
  Re.rep p greedy s lo hi k = Some x ->
  exists n,
    lo <= n <= String.length s
    /\ Forall (fun c => p c = true) (Str.chars (Re.take n s))
    /\ k (Re.drop n s) = Some x.
Proof.
  revert lo hi. induction s as [|c s IH]; intros lo hi; cbn [Re.rep]; intros H.
  - assert (lo = 0 /\ k "" = Some x) as [-> Hk]
      by (destruct greedy; repeat case_match; by simplify_eq).
    exists 0. simpl. split; [lia|]. split; [constructor|done].
  - assert ((lo = 0 /\ k (String c s) = Some x)
            \/ (p c = true
                /\ exists hi', Re.rep p greedy s (Nat.pred lo) hi' k = Some x))
      as [[-> Hk]|[Hc [hi' Hmore]]]
      by (destruct greedy; repeat case_match; simplify_eq; eauto).
    + exists 0. simpl. split; [lia|]. split; [constructor|done].
    + apply IH in Hmore as (n & Hn & Hall & Hk). exists (S n). simpl.
      split; [lia|]. split; [by constructor|done].
Qed.

(** A successful run has called its continuation on some text. *)
Lemma run_inv r s (k : string -> option R) x :
  Re.run r R s k = Some x -> exists s', k s' = Some x.
Proof.
  revert s k. induction r as [l|p|p lo hi greedy|r _|r1 IH1 r2 IH2];
    intros s k; cbn [Re.run].
  - destruct (String.prefix l s); [eauto|done].
  - destruct s as [|c s]; [done|]. destruct (p c); [eauto|done].
  - intros (n & _ & _ & Hk)%rep_inv. eauto.
  - destruct (Re.run r unit s _); [done|eauto].
  - intros (s1 & (s2 & Hk)%IH2)%IH1. eauto.
Qed.

End Matcher.

Lemma drop_length n s :
  n <= String.length s ->
  String.length (Re.drop n s) = String.length s - n.
Proof.
  revert s. induction n as [|n IH]; intros [|c s] Hn; simpl in *;
    try lia. apply IH. lia.
Qed.

(** The group of a pattern whose group is a class repeated at least
    once: it is not empty and all its characters are of the class. *)
Lemma gmatch_at_plus_group r p s n g :
  Re.grp r = Re.plus p ->
  Re.gmatch_at r s = Some (n, g) ->
  g <> "" /\ Forall (fun c => p c = true) (Str.chars g).
Proof.
  intros Hgrp. unfold Re.gmatch_at. rewrite Hgrp.
  intros (s1 & Hgroup)%run_inv. cbn [Re.run Re.plus] in Hgroup.
  apply rep_inv in Hgroup as (m & Hm & Hall & (s3 & [= _ <-])%run_inv).
  unfold Re.taken. rewrite drop_length by lia.
  replace (String.length s1 - (String.length s1 - m)) with m by lia.
  split; [|done]. destruct m as [|m]; [lia|].
  destruct s1; [simpl in Hm; lia|done].
Qed.

Lemma finditer_go_match r s i skip m :
  m ∈ Re.finditer_go r s i skip ->
  exists s', Re.gmatch_at r s' = Some (Re.m_len m, Re.group1 m).
Proof.
  revert i skip. induction s as [|c s IH]; intros i skip; cbn [Re.finditer_go].
  - by intros ?%elem_of_nil.
  - destruct skip as [|skip]; [|apply IH].
    destruct (Re.gmatch_at r (String c s)) as [[[|n] g]|] eqn:Hmatch;
      [apply IH| |apply IH].
    intros [->|Hin]%elem_of_cons; [eauto|by eapply IH].
Qed.

(** X9.  The names that the scan of a platform [config.c] adds are never
    empty, never [__main__] and hold no double quote. *)
Theorem scan_inittab_names p names w names' w' x :
  scan_inittab p names w = (Ok names', w') ->
  x ∈ names' ->
  x ∈ names
  \/ (x <> "" /\ x <> "__main__"
      /\ Str.contains dquote x = false).
Proof.
  unfold scan_inittab. intros H Hx. inv_bind H.
  destruct (negb a); [unfold ret in H; simplify_eq; by left|].
  inv_bind H. destruct (_ !! 1%nat) as [table|]; [|done].
  unfold ret in H. simplify_eq.
  apply record_inittab_spec in Hx as [|(Hmain & m & Hm & <-)]; [by left|].
  right. apply finditer_go_match in Hm as [s' Hm].
  apply (gmatch_at_plus_group _ (Re.none_of dquote)) in Hm
    as [Hne Hclass]; [|done].
  split; [done|]. split; [done|].
  clear -Hclass. induction (Re.group1 m) as [|c g IH]; [done|].
  apply Forall_cons in Hclass as [Hc Hg].
  cbn [Str.contains]. apply orb_false_iff. split; [|by apply IH].
  unfold dquote. cbn -[ascii_dec].
  destruct (ascii_dec "034" c) as [<-|]; [|done].
  by vm_compute in Hc.
Qed.

(** The [config.c] of the concrete tree of 3.8: the scan adds [nt] and
    passes over [__main__]. *)
Lemma scan_inittab_names_witness :
  exists names' w',
    scan_inittab Demo.config_c [] Demo.world_38 = (Ok names', w')
    /\ names' = ["nt"]
    /\ "nt" <> "" /\ "nt" <> "__main__" /\ Str.contains dquote "nt" = false.
Proof.
  destruct (run_check (scan_inittab Demo.config_c []) Demo.world_38
              (fun names' => bool_decide (names' = ["nt"])))
    as (names' & Hrun & Hnames); [vm_compute; reflexivity|].
  apply bool_decide_eq_true in Hnames.
  exists names', (scan_inittab Demo.config_c [] Demo.world_38).2.
  split; [exact Hrun|]. split; [exact Hnames|].
  destruct (scan_inittab_names Demo.config_c [] Demo.world_38 names' _ "nt"
              Hrun) as [Hin|H]; [|by apply elem_of_nil in Hin|exact H].
  rewrite Hnames. apply list_elem_of_here.
Defined.

(** ** The entries of the library directory *)

Lemma contains_char_absent c (t : string) :
  Forall (fun d => d <> c) (Str.chars t) ->
  Str.contains (String c "") t = false.
Proof.
  induction t as [|d t IH]; [done|]. intros [Hd Ht]%Forall_cons.
  cbn [Str.contains]. apply orb_false_iff. split; [|by apply IH].
  cbn -[ascii_dec]. by destruct (ascii_dec c d) as [->|].
Qed.

Lemma rev_app_char_absent c (cur t : string) :
  Forall (fun d => d <> c) (Str.chars cur) ->
  Forall (fun d => d <> c) (Str.chars t) ->
  Forall (fun d => d <> c) (Str.chars (String.rev_app cur t)).
Proof.
  revert t. induction cur as [|d cur IH]; intros t Hcur Ht; [done|].
  apply Forall_cons in Hcur as [Hd Hcur].
  cbn [String.rev_app]. apply IH; [done|]. by constructor.
Qed.

(** The first piece of a text split at a character does not hold it. *)
Lemma split_go_head_char_absent c s cur :
  Forall (fun d => d <> c) (Str.chars cur) ->
  Forall (fun d => d <> c)
    (Str.chars (List.hd "" (Str.split_go (String c "") s 0 cur))).
Proof.
  revert cur. induction s as [|d s IH]; intros cur Hcur.
  - cbn [Str.split_go List.hd]. by apply rev_app_char_absent.
  - cbn -[ascii_dec String.rev].
    destruct (ascii_dec c d) as [->|Hd].
    + rewrite prefix_empty. cbn [List.hd]. by apply rev_app_char_absent.
    + apply IH. constructor; [congruence|done].
Qed.

Lemma split_head_char_absent c s :
  Str.contains (String c "") (List.hd "" (Str.split s (String c ""))) = false.
Proof.
  apply contains_char_absent, split_go_head_char_absent. constructor.
Qed.

(** X10.  An entry of [Lib] whose name starts with neither [plat-] nor
    [lib-] never makes the scan fail and changes nothing but the list:
    it adds at most one name, and a name it adds holds no dot and is none
    of [__pycache__], [site-packages] and [test].  An entry whose name
    does start so is listed like a directory: when it is a regular file
    the scan raises [NotADirectoryError] and the release is aborted. *)
Theorem scan_lib_entry_cases p names w :
  (Str.startswith_any (Path.name p) ["plat-"; "lib-"] = false ->
   exists added,
     scan_lib_entry p names w = (Ok (names ++ added), w)
     /\ length added <= 1
     /\ forall x, x ∈ added ->
          Str.contains "." x = false
          /\ x ∉ ["__pycache__"; "site-packages"; "test"])
  /\ (forall text,
        Str.startswith_any (Path.name p) ["plat-"; "lib-"] = true ->
        fs w !! p = Some (File text) ->
        scan_lib_entry p names w = (Raise (NotADirectoryError p), w)).
Proof.
  split.
  - intros Hplain. unfold scan_lib_entry. rewrite Hplain.
    case_bool_decide as Hexcluded.
    + exists []. rewrite app_nil_r. split; [done|]. split; [simpl; lia|].
      by intros x ?%elem_of_nil.
    + eexists [_]. split; [done|]. split; [simpl; lia|].
      intros x ->%list_elem_of_singleton. split; [|done].
      apply (split_head_char_absent "."%char).
  - intros text Hplat Hfile. unfold scan_lib_entry. rewrite Hplat.
    unfold bind, iterdir. by rewrite Hfile.
Qed.

(** In the tree of 3.8 of the concrete world, [__phello__.foo.py] gives
    [__phello__] and the directory [test] gives nothing. *)
Lemma scan_lib_entry_cases_witness :
  scan_lib_entry (Demo.py38 ++ ["Lib"; "__phello__.foo.py"]) [] Demo.world_38
    = (Ok ["__phello__"], Demo.world_38)
  /\ scan_lib_entry (Demo.py38 ++ ["Lib"; "test"]) [] Demo.world_38
     = (Ok [], Demo.world_38).
Proof.
  split.
  - destruct (proj1 (scan_lib_entry_cases
                       (Demo.py38 ++ ["Lib"; "__phello__.foo.py"]) []
                       Demo.world_38) eq_refl) as (added & Hrun & _).
    rewrite Hrun. f_equal.
    assert ((scan_lib_entry (Demo.py38 ++ ["Lib"; "__phello__.foo.py"]) []
               Demo.world_38).1 = Ok ["__phello__"]) as Hval
      by (vm_compute; reflexivity).
    by rewrite Hrun in Hval.
  - destruct (proj1 (scan_lib_entry_cases (Demo.py38 ++ ["Lib"; "test"]) []
                       Demo.world_38) eq_refl) as (added & Hrun & _).
    rewrite Hrun. f_equal.
    assert ((scan_lib_entry (Demo.py38 ++ ["Lib"; "test"]) []
               Demo.world_38).1 = Ok []) as Hval
      by (vm_compute; reflexivity).
    by rewrite Hrun in Hval.
Defined.

(** ** The aliases *)

(** X11.  The two aliases are added in step: a version tuple that reaches
    (3, 5) reaches (3, 3), so [_frozen_importlib_external] is never added
    without [_frozen_importlib] before it, and a tuple below (3, 3) adds
    nothing. *)
Theorem add_aliases_in_step t names :
  (tuple_ge t [3; 5]%Z = true -> tuple_ge t [3; 3]%Z = true)
  /\ add_aliases t names =
     names ++ (if tuple_ge t [3; 3]%Z
               then "_frozen_importlib"
                    :: (if tuple_ge t [3; 5]%Z
                        then ["_frozen_importlib_external"] else [])
               else []).
Proof.
  assert (tuple_ge t [3; 5]%Z = true -> tuple_ge t [3; 3]%Z = true) as Hstep.
  { destruct t as [|x [|y t]]; cbn [tuple_ge]; [done|..];
      repeat (case_match; try done);
      rewrite ?Z.ltb_lt, ?Z.ltb_ge in *; lia. }
  split; [done|]. unfold add_aliases.
  destruct (tuple_ge t [3; 3]%Z), (tuple_ge t [3; 5]%Z) eqn:H35;
    rewrite <- ?app_assoc, ?app_nil_r; try done.
  by specialize (Hstep eq_refl).
Qed.

(** The tuple of 3.10 reaches both thresholds, the tuple of 3.4 only the
    first. *)
Lemma add_aliases_in_step_witness :
  tuple_ge [3; 10]%Z [3; 3]%Z = true
  /\ add_aliases [3; 4]%Z ["os"] = ["os"; "_frozen_importlib"].
Proof.
  split.
  - exact (proj1 (add_aliases_in_step [3; 10]%Z []) eq_refl).
  - exact (proj2 (add_aliases_in_step [3; 4]%Z ["os"])).
Defined.

(** ** A release whose tree has none of the scanned directories *)

Lemma for_each_unchanged {A B} (xs : list A) (body : A -> B -> M B) acc w :
  Forall (fun x => forall acc, body x acc w = (Ok acc, w)) xs ->
  for_each xs body acc w = (Ok acc, w).
Proof.
  induction 1 as [|x xs Hx _ IH]; [done|].
  cbn [for_each]. by rewrite (bind_Ok_l _ _ _ _ _ (Hx acc)).
Qed.

(** X12.  Directories that are missing are passed over without an error:
    for a tree without [Lib], [Python], [Modules] and [PC] and without the
    two [config.c], the names of the release are those of the build script
    followed by the aliases, and collecting them changes nothing. *)
Theorem collect_bare_tree env version base setup w module t :
  try_parse env setup w = (Ok module, w) ->
  version_tuple version = Ok t ->
  Forall (fun subdir => fs w !! Path.child base subdir <> Some Dir)
    ["Lib"; "Python"; "Modules"; "PC"] ->
  fs w !! Path.child (Path.child base "PC") "config.c" = None ->
  fs w !! Path.child (Path.child (Path.child base "PC") "os2vacpp") "config.c"
    = None ->
  collect env version base setup w
    = (Ok (add_aliases t (visit env module [])), w).
Proof.
  intros Hparse Ht Hdirs Hcfg1 Hcfg2.
  apply Forall_cons in Hdirs as [HLib Hdirs].
  unfold collect.
  rewrite (bind_Ok_l _ _ _ _ _ Hparse).
  rewrite (bind_Ok_l _ _ w [] w)
    by (unfold glob_all; by rewrite bool_decide_eq_false_2).
  rewrite (bind_Ok_l _ _ w (visit env module []) w) by done.
  rewrite (bind_Ok_l _ _ w (visit env module []) w).
  2:{ apply for_each_unchanged.
      eapply Forall_impl; [exact Hdirs|]. intros subdir Hsubdir names.
      unfold scan_native_dir, bind, glob_c.
      by rewrite bool_decide_eq_false_2. }
  rewrite (bind_Ok_l _ _ w (visit env module []) w).
  2:{ apply for_each_unchanged. repeat constructor; intros names;
        unfold scan_inittab, bind, exists_;
        by rewrite bool_decide_eq_false_2
          by (rewrite ?Hcfg1, ?Hcfg2; by intros [? ?]). }
  unfold bind, lift, ret. by rewrite Ht.
Qed.

(** With the build script of the concrete world and a base directory
    that is not there, the names of 3.8 are those of the build script
    followed by the two aliases. *)
Lemma collect_bare_tree_witness :
  collect Demo.env "3.8" [".cache"; "nowhere"] (Demo.py38 ++ ["setup.py"])
    Demo.world_38
  = (Ok ["_socket"; "_Qt"; "_Carbon"; "_frozen_importlib";
         "_frozen_importlib_external"], Demo.world_38).
Proof.
  pose proof (run_pair (try_parse Demo.env (Demo.py38 ++ ["setup.py"]))
                Demo.world_38 Demo.setup_tree
                ltac:(vm_compute; reflexivity)) as Hparse.
  rewrite (try_parse_world _ _ _ _ _ Hparse) in Hparse.
  refine (collect_bare_tree Demo.env "3.8" [".cache"; "nowhere"]
            (Demo.py38 ++ ["setup.py"]) Demo.world_38 Demo.setup_tree
            [3; 8]%Z Hparse eq_refl _ eq_refl eq_refl).
  repeat constructor; by vm_compute.
Defined.

(** ** A version that is not tracked *)

(** X13.  [regen] of a version that is no key of [RELEASES] raises
    [KeyError] for it before anything is done: no file is read or written,
    no process started, nothing printed. *)
Theorem regen_unknown_version env version w :
  version ∉ RELEASES.*1 ->
  regen env version w = (Raise (KeyError version), w).
Proof.
  intros Hversion. unfold regen.
  assert (assoc version RELEASES = None) as ->; [|done].
  induction RELEASES as [|[k v] d IH]; [done|].
  apply not_elem_of_cons in Hversion as [Hk Hd]. simpl.
  rewrite bool_decide_eq_false_2 by done. by apply IH.
Qed.

(** There is no release 3.11 in the table. *)
Lemma regen_unknown_version_witness :
  regen Demo.env "3.11" Demo.world_all = (Raise (KeyError "3.11"), Demo.world_all).
Proof.
  apply regen_unknown_version.
  apply (bool_decide_unpack ("3.11" ∉ RELEASES.*1)). vm_compute. exact I.
Defined.

(** ** The C files, once more *)

(** X14.  When the text taken from the match is a quoted literal, the
    name recorded for the C file is that text without the quotes around
    it, whatever the file is called: the override table and the suffix
    rule are not looked at, and nothing is printed. *)
Theorem scan_c_file_quoted p data m s names w :
  fs w !! p = Some (File data) ->
  or_else (Re.search MODULE_DEF_RE data) (Re.search PY2_INITMODULE_RE data)
    = Some m ->
  matched_text (Re.group1 m) = Ok s ->
  quoted s = true ->
  scan_c_file p names w = (Ok (names ++ [Str.strip_chars s dquote]), w).
Proof.
  intros Hfile Hmatch Hs Hquoted.
  rewrite (scan_c_file_read _ _ _ _ Hfile), Hmatch.
  rewrite (scan_match_resolved _ _ _ _ _ Hs).
  unfold resolve. fold (quoted s). by rewrite Hquoted.
Qed.

(** A file called [_sre.c] that names its module [zz] by a designated
    initializer with a comment in it is entered as [zz], not as [_sre]. *)
Lemma scan_c_file_quoted_witness :
  Re.group1 <$> Re.search MODULE_DEF_RE Cases.designated_text
    = Some (".m_name = /* the name */ " +:+ Demo.q "zz")
  /\ scan_c_file Cases.sre_file [] Cases.world_designated
     = (Ok ["zz"], Cases.world_designated).
Proof.
  split; [vm_compute; reflexivity|].
  refine (scan_c_file_quoted Cases.sre_file Cases.designated_text
            {| Re.m_start := 14; Re.m_len := 79;
               Re.group1 := ".m_name = /* the name */ " +:+ Demo.q "zz" |}
            (Demo.q "zz") [] Cases.world_designated eq_refl _ _ _).
  all: vm_compute; reflexivity.
Defined.

(** X15.  The scan of one C file fails in three ways only, and leaves the
    world as it was when it does: the path is not there, the path is a
    directory, or line 165 indexes past the end ([IndexError]).  For a
    path that is a regular file only the last one is left. *)
Theorem scan_c_file_failures p names w e w' :
  scan_c_file p names w = (Raise e, w') ->
  w' = w
  /\ (e = FileNotFoundError p /\ fs w !! p = None
      \/ e = IsADirectoryError p /\ fs w !! p = Some Dir
      \/ e = IndexError /\ exists data, fs w !! p = Some (File data)).
Proof.
  unfold scan_c_file, bind at 1, read_text.
  destruct (fs w !! p) as [[data|]|] eqn:Hp.
  - destruct (or_else _ _) as [m|]; [|done].
    destruct (matched_text (Re.group1 m)) as [s|e'] eqn:Hs.
    + rewrite (scan_match_resolved _ _ _ _ _ Hs). by destruct (resolve p s).
    + rewrite (scan_match_raises _ _ _ _ _ Hs). intros [= <- <-].
      split; [done|]. right. right. split; [|by eexists].
      unfold matched_text in Hs. repeat case_match; by simplify_eq.
  - intros [= <- <-]. split; [done|]. right. left. done.
  - intros [= <- <-]. split; [done|]. left. done.
Qed.

(** The file with the bare [.m_name] of the concrete world: the scan
    raises, and it is the [IndexError] of a regular file. *)
Lemma scan_c_file_failures_witness :
  scan_c_file Demo.m_name_file [] Demo.world_m_name
    = (Raise IndexError, Demo.world_m_name)
  /\ exists data,
       fs Demo.world_m_name !! Demo.m_name_file = Some (File data).
Proof.
  pose proof (run_raise (scan_c_file Demo.m_name_file []) Demo.world_m_name
                IndexError ltac:(vm_compute; reflexivity)) as Hrun.
  destruct (scan_c_file_failures Demo.m_name_file [] Demo.world_m_name
              IndexError _ Hrun)
    as (Hworld & [[[=] _]|[[[=] _]|[_ Hfile]]]).
  rewrite Hworld in Hrun. by split.
Defined.

(** ** A run that fails on a cached tree *)

(** X16.  When [regen] fails for a release whose tree is in the cache, it
    has written nothing and started no process: the table of the release
    is written only after every scan has succeeded, so a failure leaves no
    partial table. *)
Theorem regen_cached_failure_writes_nothing env version url w e w' :
  assoc version RELEASES = Some url ->
  is_Some (fs w !! base_path_of url) ->
  regen env version w = (Raise e, w') ->
  fs w' = fs w /\ processes w' = processes w.
Proof.
  intros Hurl Hthere. unfold regen. rewrite Hurl.
  rewrite (bind_Ok_l _ _ w url w) by done.
  rewrite (bind_Ok_l _ _ _ _ _ (fetch_cached env version url w Hthere)).
  cbn [fst snd]. unfold bind at 1.
  destruct (collect env version _ _ w) as [[l|e'] w1] eqn:Hcollect.
  - unfold bind, write_tmpl, write_text, print, ret. done.
  - intros [= <- <-].
    split; [by eapply (keeps_run fs), Hcollect; apply collect_keeps_fs|].
    eapply (keeps_run processes), Hcollect. apply collect_keeps_processes.
Qed.

(** Release 3.8 with a [config.c] without the marker: the run fails and
    the files are as before. *)
Lemma regen_cached_failure_writes_nothing_witness :
  fs (regen Demo.env "3.8" Demo.world_no_marker).2 = fs Demo.world_no_marker.
Proof.
  refine (proj1 (regen_cached_failure_writes_nothing Demo.env "3.8"
    "https://www.python.org/ftp/python/3.8.8/Python-3.8.8.tgz"
    Demo.world_no_marker IndexError _ eq_refl _ _)).
  - vm_compute. eexists. reflexivity.
  - apply run_raise. vm_compute. reflexivity.
Defined.

(** ** The init table, end to end *)

Lemma scan_inittab_present p text table names w :
  fs w !! p = Some (File text) ->
  Str.split text INITTAB_MARKER !! 1%nat = Some table ->
  scan_inittab p names w
  = (Ok (foldl record_inittab names (Re.finditer INITTAB_RE table)), w).
Proof.
  intros Hp Htable. unfold scan_inittab, bind at 1, exists_.
  rewrite bool_decide_eq_true_2 by (by rewrite Hp). cbn [negb].
  unfold bind, read_text. rewrite Hp. by rewrite Htable.
Qed.

(** X17.  For a release in the cache whose [PC/config.c] holds the marker,
    every name that the table pattern finds after the first marker, other
    than [__main__], is in the set that a successful [regen] returns and
    writes. *)
Theorem regen_keeps_inittab_names env version url w names w' text table m :
  assoc version RELEASES = Some url ->
  is_Some (fs w !! base_path_of url) ->
  fs w !! Path.child (Path.child (base_path_of url) "PC") "config.c"
    = Some (File text) ->
  Str.split text INITTAB_MARKER !! 1%nat = Some table ->
  m ∈ Re.finditer INITTAB_RE table ->
  Re.group1 m <> "__main__" ->
  regen env version w = (Ok names, w') ->
  Re.group1 m ∈ names /\ Re.group1 m ∈ sorted names.
Proof.
  intros Hurl Hthere Hfile Htable Hm Hmain Hregen.
  apply regen_Ok_inv in Hregen
    as (url' & paths & w1 & l & w2 & Hurl' & Hfetch & Hcollect & -> & _).
  rewrite Hurl in Hurl'. injection Hurl' as <-.
  rewrite (fetch_cached env version url w Hthere) in Hfetch.
  injection Hfetch as <- <-. cbn [fst snd] in Hcollect.
  assert (Re.group1 m ∈ l) as Hin.
  { unfold collect in Hcollect.
    inv_bind Hcollect.
    apply (keeps_run fs) in Hrun; [|apply try_parse_keeps].
    inv_bind Hcollect.
    apply (keeps_run fs) in Hrun0; [|apply glob_all_keeps].
    inv_bind Hcollect.
    apply (keeps_run fs) in Hrun1;
      [|apply keeps_for_each; intros; apply scan_lib_entry_keeps].
    inv_bind Hcollect.
    apply (keeps_run fs) in Hrun2;
      [|apply keeps_for_each; intros; apply scan_native_dir_keeps_fs].
    inv_bind Hcollect. inv_bind Hcollect.
    unfold ret in Hcollect. simplify_eq.
    cbn [for_each] in Hrun3. inv_bind Hrun3. inv_bind Hrun3.
    unfold ret in Hrun3. simplify_eq.
    rewrite (scan_inittab_present _ text table) in Hrun5
      by (done || congruence).
    injection Hrun5 as <- <-.
    apply scan_inittab_prefix in Hrun6 as [more1 ->].
    destruct (add_aliases_prefix a4 (foldl record_inittab a2
                (Re.finditer INITTAB_RE table) ++ more1)) as [more2 ->].
    rewrite !elem_of_app. left. left.
    apply record_inittab_spec. right. split; [done|]. by exists m. }
  split; [by apply elem_of_list_to_set|].
  by apply elem_of_sorted, elem_of_list_to_set.
Qed.

(** Release 3.8 of the concrete world: [nt] of its [config.c] is in the
    table, [__main__] was passed over. *)
Lemma regen_keeps_inittab_names_witness :
  exists names w',
    regen Demo.env "3.8" Demo.world_38 = (Ok names, w')
    /\ "nt" ∈ sorted names.
Proof.
  destruct (run_check (regen Demo.env "3.8") Demo.world_38 (fun _ => true))
    as (names & Hrun & _); [vm_compute; reflexivity|].
  exists names, (regen Demo.env "3.8" Demo.world_38).2.
  split; [exact Hrun|].
  refine (proj2 (regen_keeps_inittab_names Demo.env "3.8"
    "https://www.python.org/ftp/python/3.8.8/Python-3.8.8.tgz"
    Demo.world_38 names _ _ _
    {| Re.m_start := 1; Re.m_len := 17; Re.group1 := "nt" |}
    eq_refl _ eq_refl eq_refl _ _ Hrun)).
  - vm_compute. eexists. reflexivity.
  - vm_compute. apply list_elem_of_here.
  - discriminate.
Defined.
